(** * my_app: the /var/log scanner of examples/demo/my_app.c

    A shallow embedding of [main] of [my_app.c] and the properties of its
    scan loop.  The program talks to the operating system only; the
    embedding therefore runs [main] against a [world] that answers every
    call the program makes, and records every call and every line of output
    in a trace.  The function-scope variables of [main] ([iteration],
    [count], [st]) are the state that is threaded through the loop. *)

From Stdlib Require Import ZArith List String Ascii Bool Lia.
From ExtLib Require Import Structures.Monad.
Import ListNotations.
Import MonadNotation.

Local Open Scope string_scope.
Local Open Scope list_scope.
Local Open Scope Z_scope.
Local Open Scope monad_scope.

(* ===================================================================== *)
(** ** C integers and the constants of the system headers *)
(* ===================================================================== *)

Definition INT_MAX : Z := 2147483647.

(** [int] arithmetic: the result of [x + 1] on a 32-bit two's-complement
    [int].  (Signed overflow is undefined in ISO C; the wrap-around is what
    the usual targets do, and every theorem that depends on a counter says
    on which range it holds.) *)
Definition int_wrap (z : Z) : Z := (z + 2 ^ 31) mod 2 ^ 32 - 2 ^ 31.

(** <sys/stat.h>, Linux values (octal 0170000, 0040000, 0100000, 0120000,
    0010000). *)
Definition S_IFMT  : Z := 61440.
Definition S_IFDIR : Z := 16384.
Definition S_IFREG : Z := 32768.
Definition S_IFLNK : Z := 40960.
Definition S_IFIFO : Z := 4096.

Definition S_ISDIR (m : Z) : bool := Z.land m S_IFMT =? S_IFDIR.
Definition S_ISREG (m : Z) : bool := Z.land m S_IFMT =? S_IFREG.

(** <fcntl.h> and <unistd.h>, Linux values. *)
Definition O_RDONLY  : Z := 0.
Definition O_WRONLY  : Z := 1.
Definition O_RDWR    : Z := 2.
Definition O_CREAT   : Z := 64.
Definition O_TRUNC   : Z := 512.
Definition O_APPEND  : Z := 1024.
Definition R_OK      : Z := 4.

Definition ENOENT  : Z := 2.
Definition ENOTDIR : Z := 20.
Definition EISDIR  : Z := 21.
Definition ELOOP   : Z := 40.

(** The two fields of [struct stat] that [main] reads. *)
Record stat_t : Type := mk_stat { st_mode : Z; st_size : Z }.

(* ===================================================================== *)
(** ** C strings *)
(* ===================================================================== *)

(** The first [n] characters of a string. *)
Fixpoint str_take (n : nat) (s : string) : string :=
  match n, s with
  | O, _ => EmptyString
  | S _, EmptyString => EmptyString
  | S k, String c r => String c (str_take k r)
  end.

(** [strcmp]: zero exactly on equal strings, otherwise the sign of the first
    difference. *)
Definition strcmp (a b : string) : Z :=
  match String.compare a b with
  | Eq => 0
  | Lt => -1
  | Gt => 1
  end.

(** [snprintf(buf, size, prefix "%s", arg)] for a format that is a literal
    prefix followed by one [%s] (ISO C 7.21.6.5): the string left in [buf].
    At most [size - 1] characters are stored, followed by the terminating
    NUL; with [size = 0] nothing is stored. *)
Definition snprintf (size : nat) (prefix arg : string) : string :=
  str_take (size - 1) (prefix ++ arg)%string.

(** Bytes of a buffer taken up by the string it holds: its characters and
    the terminating NUL. *)
Definition bytes_used (s : string) : nat := S (String.length s).

(* ===================================================================== *)
(** ** Calls, output and the world *)
(* ===================================================================== *)

(** The calls on the filesystem (and the clock) that [main] makes, with the
    arguments it passes. *)
Inductive syscall : Type :=
| Opendir (path : string)
| Readdir
| Closedir
| Stat (path : string)
| Lstat (path : string)
| Access (path : string) (mode : Z)
| Open (path : string) (flags : Z)
| Read (fd : Z) (nbyte : Z)
| Close (fd : Z)
| Sleep (secs : Z).

(** An argument of a [printf] conversion. *)
Inductive arg : Type :=
| ArgInt (z : Z)
| ArgStr (s : string).

(** What the program does, in order.  Format strings are kept as they are
    spelled in the source. *)
Inductive event : Type :=
| Sys (c : syscall)
| Printf (fmt : string) (args : list arg)
| Fprintf_stderr (fmt : string) (args : list arg).

(** The answers of the operating system during one pass of the loop. *)
Record world : Type := mk_world {
  (** [opendir]: [inl errno] on failure, otherwise the names that the
      successive [readdir] calls deliver, in order. *)
  w_opendir : string -> Z + list string;
  (** [stat] and [lstat]: [None] on failure (-1). *)
  w_stat : string -> option stat_t;
  w_lstat : string -> option stat_t;
  (** [access path mode]: 0 or -1. *)
  w_access : string -> Z -> Z;
  (** [open path flags]: a descriptor, or -1. *)
  w_open : string -> Z -> Z;
  (** [read] of [nbyte] bytes from a descriptor just opened on the path:
      the number of bytes read, or -1. *)
  w_read : string -> Z -> Z;
  w_strerror : Z -> string
}.

(** The variables of [main] that live across the passes of the loop. *)
Record locals : Type := mk_locals {
  iteration : Z;
  count : Z;
  st : stat_t
}.

Definition set_iteration (v : Z) (s : locals) : locals :=
  mk_locals v (count s) (st s).
Definition set_count (v : Z) (s : locals) : locals :=
  mk_locals (iteration s) v (st s).
Definition set_st (v : stat_t) (s : locals) : locals :=
  mk_locals (iteration s) (count s) v.

(* ===================================================================== *)
(** ** The monad of [main]: state of the locals, trace of the events *)
(* ===================================================================== *)

Definition M (A : Type) : Type := locals -> A * locals * list event.

Definition M_ret {A} (a : A) : M A := fun s => (a, s, []).

Definition M_bind {A B} (m : M A) (f : A -> M B) : M B :=
  fun s =>
    let '(a, s1, t1) := m s in
    let '(b, s2, t2) := f a s1 in
    (b, s2, t1 ++ t2).

#[export] Instance Monad_M : Monad M :=
  {| ret := @M_ret; bind := @M_bind |}.

Definition run {A} (m : M A) (s : locals) : A * locals * list event := m s.
Definition value {A} (r : A * locals * list event) : A := fst (fst r).
Definition final {A} (r : A * locals * list event) : locals := snd (fst r).
Definition trace {A} (r : A * locals * list event) : list event := snd r.

Definition emit (e : event) : M unit := fun s => (tt, s, [e]).
Definition gets {A} (f : locals -> A) : M A := fun s => (f s, s, []).
Definition modify (f : locals -> locals) : M unit := fun s => (tt, f s, []).

Definition printf (fmt : string) (args : list arg) : M unit :=
  emit (Printf fmt args).
Definition fprintf_stderr (fmt : string) (args : list arg) : M unit :=
  emit (Fprintf_stderr fmt args).

(* ===================================================================== *)
(** ** [main] *)
(* ===================================================================== *)

(** [log_files], without its terminating [NULL]. *)
Definition log_files : list string :=
  [ "/var/log/messages";
    "/var/log/secure";
    "/var/log/cron";
    "/var/log/maillog";
    "/var/log/boot.log";
    "/var/log/dmesg";
    "/var/log/audit/audit.log";
    "/var/log/yum.log";
    "/var/log/spooler";
    "/var/log/tuned/tuned.log" ].

(** [char path[512]] and [char buf[1024]]. *)
Definition sizeof_path : nat := 512.
Definition sizeof_buf : Z := 1024.

Section Scanner.

Variable w : world.

(** *** The calls *)

Definition opendir (path : string) : M (Z + list string) :=
  emit (Sys (Opendir path)) ;; ret (w_opendir w path).

Definition closedir : M unit := emit (Sys Closedir).

(** [stat(path, &st)]: on success the result is stored in [st]. *)
Definition stat (path : string) : M Z :=
  emit (Sys (Stat path)) ;;
  match w_stat w path with
  | Some r => modify (set_st r) ;; ret 0
  | None => ret (-1)
  end.

(** [lstat(path, &st)]: the same variable [st] receives the result. *)
Definition lstat (path : string) : M Z :=
  emit (Sys (Lstat path)) ;;
  match w_lstat w path with
  | Some r => modify (set_st r) ;; ret 0
  | None => ret (-1)
  end.

Definition access (path : string) (mode : Z) : M Z :=
  emit (Sys (Access path mode)) ;; ret (w_access w path mode).

Definition open (path : string) (flags : Z) : M Z :=
  emit (Sys (Open path flags)) ;; ret (w_open w path flags).

(** [read(fd, buf, nbyte)] on the descriptor that [open] returned for
    [path]. *)
Definition read (path : string) (fd nbyte : Z) : M Z :=
  emit (Sys (Read fd nbyte)) ;; ret (w_read w path nbyte).

Definition close (fd : Z) : M unit := emit (Sys (Close fd)).

Definition sleep (secs : Z) : M unit := emit (Sys (Sleep secs)).

(** *** Lines 54-83: the body of the [readdir] loop for one entry *)

(** Lines 58-59. *)
Definition entry_path (d_name : string) : string :=
  snprintf sizeof_path "/var/log/" d_name.

(** Lines 74-80. *)
Definition print_kind : M unit :=
  m <- gets (fun s => st_mode (st s)) ;;
  if S_ISDIR m then printf "(directory)\n" []
  else if S_ISREG m then
    sz <- gets (fun s => st_size (st s)) ;;
    printf "(file, %ld bytes)\n" [ArgInt sz]
  else printf "(other)\n" [].

Definition scan_entry (d_name : string) : M unit :=
  if (strcmp d_name "." =? 0) || (strcmp d_name ".." =? 0) then
    ret tt                                              (* continue *)
  else
    let path := entry_path d_name in
    r <- stat path ;;
    (if r =? 0 then
       lstat path ;;
       access path R_OK ;;
       c <- gets count ;;
       if c <? 5 then
         printf "    - %s " [ArgStr d_name] ;;
         print_kind
       else ret tt
     else ret tt) ;;
    modify (fun s => set_count (int_wrap (count s + 1)) s).

(** Lines 53-84: [while ((entry = readdir(dir)) != NULL)], on the names the
    directory stream still holds. *)
Fixpoint readdir_loop (stream : list string) : M unit :=
  match stream with
  | [] => emit (Sys Readdir)
  | d_name :: rest =>
      emit (Sys Readdir) ;;
      scan_entry d_name ;;
      readdir_loop rest
  end.

(** *** Lines 105-116: the loop over [log_files] *)

Definition sample_file (path : string) (files_read : Z) : M Z :=
  fd <- open path O_RDONLY ;;
  if 0 <=? fd then
    bytes <- read path fd sizeof_buf ;;
    close fd ;;
    printf "    - %s (%ld bytes read)\n" [ArgStr path; ArgInt bytes] ;;
    ret (int_wrap (files_read + 1))
  else ret files_read.

Fixpoint sample_loop (paths : list string) (files_read : Z) : M Z :=
  match paths with
  | [] => ret files_read
  | p :: rest =>
      files_read' <- sample_file p files_read ;;
      sample_loop rest files_read'
  end.

(** *** Lines 36-122: one pass of [while (1)] *)

Definition banner : M unit :=
  it <- gets iteration ;;
  printf "\n[Iteration %d - %s]\n"
    [ArgInt it; ArgStr (if it =? 1 then "First scan" else "Periodic scan")].

Definition loop_body : M unit :=
  modify (fun s => set_iteration (int_wrap (iteration s + 1)) s) ;;
  banner ;;
  printf "[1] Opening /var/log directory...\n" [] ;;
  dir <- opendir "/var/log" ;;
  match dir with
  | inl errno =>
      fprintf_stderr "ERROR: Failed to open /var/log: %s\n"
        [ArgStr (w_strerror w errno)] ;;
      sleep 10                                          (* continue *)
  | inr stream =>
      printf "    - Successfully opened /var/log\n" [] ;;
      printf "[2] Reading directory contents and probing metadata...\n" [] ;;
      modify (set_count 0) ;;
      readdir_loop stream ;;
      closedir ;;
      c <- gets count ;;
      printf "    - Probed metadata for %d total entries\n" [ArgInt c] ;;
      printf "[3] Reading multiple log files...\n" [] ;;
      files_read <- sample_loop log_files 0 ;;
      printf "    - Successfully read %d log files\n" [ArgInt files_read] ;;
      printf "\n>> Scan complete. Sleeping 10 seconds...\n" [] ;;
      printf "   (Press Ctrl+C to stop)\n" [] ;;
      sleep 10
  end.

End Scanner.

(** Lines 26-32. *)
Definition prologue : M unit :=
  printf "========================================================\n" [] ;;
  printf "my_app: Demo Application Starting\n" [] ;;
  printf "========================================================\n" [] ;;
  printf "Purpose: Read files from /var/log directory\n" [] ;;
  printf "SELinux Context: my_app_t\n" [] ;;
  printf "Running continuously (Ctrl+C to stop)\n" [] ;;
  printf "========================================================\n\n" [].

(** [while (1)], for as many passes as there are worlds: the k-th pass runs
    against the k-th world. *)
Fixpoint main_loop (ws : list world) : M unit :=
  match ws with
  | [] => ret tt
  | w :: rest => loop_body w ;; main_loop rest
  end.

(** [main], observed for [length ws] passes of its loop.  [st0] is the
    content of the uninitialised [st]. *)
Definition main (ws : list world) (st0 : stat_t) : list event :=
  trace (run (prologue ;; main_loop ws) (mk_locals 0 0 st0)).

(* ===================================================================== *)
(** ** Reading a trace *)
(* ===================================================================== *)

(** The calls of a trace, in order. *)
Definition syscall_of (e : event) : list syscall :=
  match e with
  | Sys c => [c]
  | _ => []
  end.

Definition syscalls (t : list event) : list syscall := flat_map syscall_of t.

(** The flags of [open] that ask for anything but reading an existing
    file. *)
Definition write_flags : Z :=
  Z.lor O_WRONLY (Z.lor O_RDWR (Z.lor O_CREAT (Z.lor O_TRUNC O_APPEND))).

(** A call that leaves every filesystem object as it is.  Of the calls
    [main] makes only [open] can do otherwise, through its flags. *)
Definition read_only (c : syscall) : bool :=
  match c with
  | Opendir _ | Readdir | Closedir => true
  | Stat _ | Lstat _ | Access _ _ => true
  | Open _ flags => Z.land flags write_flags =? 0
  | Read _ _ | Close _ | Sleep _ => true
  end.

(** The lines on standard error. *)
Definition stderr_of (e : event) : list (string * list arg) :=
  match e with
  | Fprintf_stderr fmt args => [(fmt, args)]
  | _ => []
  end.

Definition stderr_lines (t : list event) : list (string * list arg) :=
  flat_map stderr_of t.

(** The kinds of the data model: what the second half of a per-entry line
    says. *)
Inductive kind : Type :=
| Directory
| RegularFile (size : Z)
| Other.

Definition kind_of_stat (r : stat_t) : kind :=
  if S_ISDIR (st_mode r) then Directory
  else if S_ISREG (st_mode r) then RegularFile (st_size r)
  else Other.

Definition kind_line (k : kind) : event :=
  match k with
  | Directory => Printf "(directory)\n" []
  | RegularFile sz => Printf "(file, %ld bytes)\n" [ArgInt sz]
  | Other => Printf "(other)\n" []
  end.

Definition kind_of_line (e : event) : option kind :=
  match e with
  | Printf fmt args =>
      if (fmt =? "(directory)\n")%string then Some Directory
      else if (fmt =? "(other)\n")%string then Some Other
      else if (fmt =? "(file, %ld bytes)\n")%string then
        match args with
        | [ArgInt sz] => Some (RegularFile sz)
        | _ => None
        end
      else None
  | _ => None
  end.

(** The name a per-entry line starts with. *)
Definition entry_name (e : event) : option string :=
  match e with
  | Printf fmt [ArgStr n] =>
      if (fmt =? "    - %s ")%string then Some n else None
  | _ => None
  end.

(** The per-entry lines of a trace: name and kind. *)
Fixpoint entry_lines (t : list event) : list (string * kind) :=
  match t with
  | [] => []
  | e :: rest =>
      match entry_name e, rest with
      | Some n, e' :: _ =>
          match kind_of_line e' with
          | Some k => (n, k) :: entry_lines rest
          | None => entry_lines rest
          end
      | _, _ => entry_lines rest
      end
  end.

(** The names of the per-entry lines of a trace. *)
Definition name_of (e : event) : list string :=
  match entry_name e with
  | Some n => [n]
  | None => []
  end.

Definition printed_entries (t : list event) : list string :=
  flat_map name_of t.

(** The totals a trace reports: entries probed, log files read. *)
Definition probed_of (e : event) : list Z :=
  match e with
  | Printf fmt [ArgInt c] =>
      if (fmt =? "    - Probed metadata for %d total entries\n")%string
      then [c] else []
  | _ => []
  end.

Definition files_read_of (e : event) : list Z :=
  match e with
  | Printf fmt [ArgInt c] =>
      if (fmt =? "    - Successfully read %d log files\n")%string
      then [c] else []
  | _ => []
  end.

Definition reported_probed (t : list event) : list Z := flat_map probed_of t.
Definition reported_files_read (t : list event) : list Z :=
  flat_map files_read_of t.

(** The entries of a directory stream that the loop does not skip. *)
Definition is_dot (d : string) : bool :=
  ((d =? ".") || (d =? ".."))%string.

Definition real_entries (stream : list string) : list string :=
  filter (fun d => negb (is_dot d)) stream.

(** The entries of the target directory in a world; none when it does not
    open. *)
Definition entries_of (w : world) : list string :=
  match w_opendir w "/var/log" with
  | inl _ => []
  | inr stream => real_entries stream
  end.

(** The symlink-following query succeeds on the entry. *)
Definition stat_ok (w : world) (d : string) : bool :=
  match w_stat w (entry_path d) with
  | Some _ => true
  | None => false
  end.

(* ===================================================================== *)
(** ** A small filesystem to run the program against *)
(* ===================================================================== *)

Module Env.

Inductive node : Type :=
| File (size : Z)
| Dir (names : list string)
| Symlink (target : string)
| Fifo.

Definition fs : Type := list (string * node).

Fixpoint lookup (f : fs) (p : string) : option node :=
  match f with
  | [] => None
  | (q, n) :: rest => if (p =? q)%string then Some n else lookup rest p
  end.

(** Follow symbolic links, at most [fuel] of them. *)
Fixpoint resolve (fuel : nat) (f : fs) (p : string) : option node :=
  match lookup f p with
  | Some (Symlink t) =>
      match fuel with
      | O => None
      | S k => resolve k f t
      end
  | other => other
  end.

Definition stat_of (n : node) : stat_t :=
  match n with
  | File sz => mk_stat (Z.lor S_IFREG 420) sz
  | Dir _ => mk_stat (Z.lor S_IFDIR 493) 4096
  | Symlink t => mk_stat (Z.lor S_IFLNK 511) (Z.of_nat (String.length t))
  | Fifo => mk_stat (Z.lor S_IFIFO 420) 0
  end.

Definition strerror (e : Z) : string :=
  if e =? ENOENT then "No such file or directory"
  else if e =? ENOTDIR then "Not a directory"
  else "Unknown error".

Definition of_fs (f : fs) : world :=
  {| w_opendir := fun p =>
       match resolve 8 f p with
       | Some (Dir names) => inr ("." :: ".." :: names)
       | Some _ => inl ENOTDIR
       | None => inl ENOENT
       end;
     w_stat := fun p => option_map stat_of (resolve 8 f p);
     w_lstat := fun p => option_map stat_of (lookup f p);
     w_access := fun p _ =>
       match resolve 8 f p with Some _ => 0 | None => -1 end;
     w_open := fun p _ =>
       match resolve 8 f p with Some _ => 3 | None => -1 end;
     w_read := fun p nbyte =>
       match resolve 8 f p with
       | Some (File sz) => Z.min nbyte sz
       | _ => -1
       end;
     w_strerror := strerror |}.

(** The scenario of the specification: [a.log] (100 bytes) and [sub/] in
    the directory, [/var/log/messages] (50 bytes) the only log file. *)
Definition scenario : fs :=
  [ ("/var/log", Dir ["a.log"; "sub"]);
    ("/var/log/a.log", File 100);
    ("/var/log/sub", Dir []);
    ("/var/log/messages", File 50) ].

(** No [/var/log] at all. *)
Definition no_var_log : fs := [].

(** A symbolic link to a directory and one to a regular file of 100
    bytes. *)
Definition with_link : fs :=
  [ ("/var/log", Dir ["journal"; "latest.log"]);
    ("/var/log/journal", Symlink "/run/log/journal");
    ("/run/log/journal", Dir []);
    ("/var/log/latest.log", Symlink "/srv/app/app.log");
    ("/srv/app/app.log", File 100) ].

(** A dangling symbolic link first, five regular files after it. *)
Definition dangling_first : fs :=
  [ ("/var/log", Dir ["old"; "a"; "b"; "c"; "d"; "e"]);
    ("/var/log/old", Symlink "/var/log/gone");
    ("/var/log/a", File 1);
    ("/var/log/b", File 2);
    ("/var/log/c", File 3);
    ("/var/log/d", File 4);
    ("/var/log/e", File 5) ].

(** [/var/log/messages] is a directory: it opens, and [read] fails on
    it. *)
Definition messages_is_dir : fs :=
  [ ("/var/log", Dir ["messages"]);
    ("/var/log/messages", Dir []) ].

Definition st0 : stat_t := mk_stat 0 0.
Definition s0 : locals := mk_locals 0 0 st0.

End Env.

(* ===================================================================== *)
(** ** What a pass of the loop leaves in the trace *)
(* ===================================================================== *)

(** The content of [st] when the kind of an entry is printed: [stat] has
    stored [r], and [lstat] has stored its own result over it if it
    succeeded. *)
Definition st_at_print (w : world) (p : string) (r : stat_t) : stat_t :=
  match w_lstat w p with
  | Some r' => r'
  | None => r
  end.

(** The events of one entry that is not skipped, when [count] is [c]. *)
Definition entry_events (w : world) (c : Z) (d : string) : list event :=
  let p := entry_path d in
  match w_stat w p with
  | None => [Sys (Stat p)]
  | Some r =>
      [Sys (Stat p); Sys (Lstat p); Sys (Access p R_OK)] ++
      (if c <? 5
       then [Printf "    - %s " [ArgStr d];
             kind_line (kind_of_stat (st_at_print w p r))]
       else [])
  end.

(** The events of the [readdir] loop, and the value it leaves in [count]. *)
Fixpoint readdir_events (w : world) (c : Z) (stream : list string)
  : list event :=
  match stream with
  | [] => [Sys Readdir]
  | d :: rest =>
      Sys Readdir ::
      (if is_dot d then readdir_events w c rest
       else entry_events w c d ++ readdir_events w (int_wrap (c + 1)) rest)
  end.

Fixpoint count_after (c : Z) (stream : list string) : Z :=
  match stream with
  | [] => c
  | d :: rest =>
      if is_dot d then count_after c rest
      else count_after (int_wrap (c + 1)) rest
  end.

(** The descriptor that [open] returns for a log file is valid. *)
Definition opened (w : world) (p : string) : bool :=
  0 <=? w_open w p O_RDONLY.

(** The events of one log file. *)
Definition sample_events (w : world) (p : string) : list event :=
  let fd := w_open w p O_RDONLY in
  Sys (Open p O_RDONLY) ::
  (if 0 <=? fd
   then [Sys (Read fd sizeof_buf); Sys (Close fd);
         Printf "    - %s (%ld bytes read)\n"
           [ArgStr p; ArgInt (w_read w p sizeof_buf)]]
   else []).

Fixpoint files_read_after (w : world) (n : Z) (paths : list string) : Z :=
  match paths with
  | [] => n
  | p :: rest =>
      files_read_after w (if opened w p then int_wrap (n + 1) else n) rest
  end.

Definition banner_line (it : Z) : event :=
  Printf "\n[Iteration %d - %s]\n"
    [ArgInt it; ArgStr (if it =? 1 then "First scan" else "Periodic scan")].

(** The last lines of a pass that has read the directory. *)
Definition pass_epilogue (n : Z) : list event :=
  [ Printf "    - Successfully read %d log files\n" [ArgInt n];
    Printf "\n>> Scan complete. Sleeping 10 seconds...\n" [];
    Printf "   (Press Ctrl+C to stop)\n" [];
    Sys (Sleep 10) ].

(** The events of a pass when [opendir] fails. *)
Definition failed_pass (w : world) (errno : Z) : list event :=
  [ Printf "[1] Opening /var/log directory...\n" [];
    Sys (Opendir "/var/log");
    Fprintf_stderr "ERROR: Failed to open /var/log: %s\n"
      [ArgStr (w_strerror w errno)];
    Sys (Sleep 10) ].

(** The events of a pass up to the [readdir] loop, and from [closedir] to
    the loop over the log files. *)
Definition pass_head : list event :=
  [ Printf "[1] Opening /var/log directory...\n" [];
    Sys (Opendir "/var/log");
    Printf "    - Successfully opened /var/log\n" [];
    Printf "[2] Reading directory contents and probing metadata...\n" [] ].

Definition pass_middle (c : Z) : list event :=
  [ Sys Closedir;
    Printf "    - Probed metadata for %d total entries\n" [ArgInt c];
    Printf "[3] Reading multiple log files...\n" [] ].

(** Everything of a pass after its banner. *)
Definition pass_rest (w : world) : list event :=
  match w_opendir w "/var/log" with
  | inl errno => failed_pass w errno
  | inr stream =>
      pass_head ++ readdir_events w 0 stream ++
      pass_middle (count_after 0 stream) ++
      flat_map (sample_events w) log_files ++
      pass_epilogue (files_read_after w 0 log_files)
  end.

(** The probes of one entry. *)
Definition probes (w : world) (d : string) : list syscall :=
  let p := entry_path d in
  match w_stat w p with
  | Some _ => [Stat p; Lstat p; Access p R_OK]
  | None => [Stat p]
  end.

(** The calls of one turn of the [readdir] loop. *)
Definition entry_calls (w : world) (d : string) : list syscall :=
  Readdir :: (if is_dot d then [] else probes w d).

(** The calls on one log file. *)
Definition sample_calls (w : world) (p : string) : list syscall :=
  let fd := w_open w p O_RDONLY in
  Open p O_RDONLY ::
  (if 0 <=? fd then [Read fd sizeof_buf; Close fd] else []).

(** The calls of a whole pass. *)
Definition pass_calls (w : world) : list syscall :=
  Opendir "/var/log" ::
  match w_opendir w "/var/log" with
  | inl _ => [Sleep 10]
  | inr stream =>
      flat_map (entry_calls w) stream ++ [Readdir; Closedir] ++
      flat_map (sample_calls w) log_files ++ [Sleep 10]
  end.

(** An [open] that passes exactly [O_RDONLY]. *)
Definition open_rdonly (c : syscall) : bool :=
  match c with
  | Open _ flags => flags =? O_RDONLY
  | _ => true
  end.

(** The calls to [open] of a trace. *)
Definition open_call (c : syscall) : bool :=
  match c with
  | Open _ _ => true
  | _ => false
  end.

Definition open_calls (t : list event) : list syscall :=
  filter open_call (syscalls t).

(** The three probes of the specification, in its order. *)
Definition three_probes (d : string) : list syscall :=
  [Stat (entry_path d); Lstat (entry_path d); Access (entry_path d) R_OK].

(** The first five of the entries that classify. *)
Definition first_five_classified (w : world) : list string :=
  firstn 5 (filter (stat_ok w) (entries_of w)).

(** The calls that take the directory handle. *)
Definition uses_dir (c : syscall) : bool :=
  match c with
  | Readdir | Closedir => true
  | _ => false
  end.

Definition is_closedir (c : syscall) : bool :=
  match c with
  | Closedir => true
  | _ => false
  end.

Definition is_readdir (c : syscall) : bool :=
  match c with
  | Readdir => true
  | _ => false
  end.

(** The calls on the descriptor of a log file. *)
Definition file_call (c : syscall) : bool :=
  match c with
  | Open _ _ | Read _ _ | Close _ => true
  | _ => false
  end.

Definition is_stat (c : syscall) : bool :=
  match c with
  | Stat _ => true
  | _ => false
  end.

Definition is_lstat (c : syscall) : bool :=
  match c with
  | Lstat _ => true
  | _ => false
  end.

Definition is_access (c : syscall) : bool :=
  match c with
  | Access _ _ => true
  | _ => false
  end.

Definition is_sleep (c : syscall) : bool :=
  match c with
  | Sleep _ => true
  | _ => false
  end.

(** A sequence of calls on log files in which a descriptor that is read is
    closed by the very next call, before any other [open], and nothing is
    read or closed that was not just opened. *)
Fixpoint fd_discipline (cs : list syscall) : bool :=
  match cs with
  | [] => true
  | Open _ _ :: rest =>
      match rest with
      | Read fd _ :: Close fd' :: rest' => (fd =? fd') && fd_discipline rest'
      | _ => fd_discipline rest
      end
  | _ => false
  end.

(** The path a call names, if it names one. *)
Definition path_of_call (c : syscall) : option string :=
  match c with
  | Opendir p | Stat p | Lstat p | Access p _ | Open p _ => Some p
  | Readdir | Closedir | Read _ _ | Close _ | Sleep _ => None
  end.

(** The call names nothing outside [/var/log]. *)
Definition under_var_log (c : syscall) : bool :=
  match path_of_call c with
  | Some p => ((p =? "/var/log") || String.prefix "/var/log/" p)%string
  | None => true
  end.

(** The per-file lines of a trace: path and bytes read. *)
Definition bytes_line_of (e : event) : list (string * Z) :=
  match e with
  | Printf fmt [ArgStr p; ArgInt b] =>
      if (fmt =? "    - %s (%ld bytes read)\n")%string then [(p, b)] else []
  | _ => []
  end.

Definition bytes_lines (t : list event) : list (string * Z) :=
  flat_map bytes_line_of t.

(** The banners of a trace: the counter and the label shown. *)
Definition banner_of (e : event) : list (Z * string) :=
  match e with
  | Printf fmt [ArgInt it; ArgStr label] =>
      if (fmt =? "\n[Iteration %d - %s]\n")%string then [(it, label)] else []
  | _ => []
  end.

Definition banners (t : list event) : list (Z * string) :=
  flat_map banner_of t.

(** What the banner of the pass numbered [k] shows. *)
Definition banner_shown (k : Z) : Z * string :=
  (k, if k =? 1 then "First scan" else "Periodic scan").

Definition is_close (c : syscall) : bool :=
  match c with
  | Close _ => true
  | _ => false
  end.

(** The log files that open in a pass; none when the pass does not get past
    [opendir]. *)
Definition opened_files (w : world) : list string :=
  match w_opendir w "/var/log" with
  | inl _ => []
  | inr _ => filter (opened w) log_files
  end.

(** The descriptor table of the log files along a list of calls, with the
    descriptors that the world hands out.  [held] is the descriptor that is
    open, if any.  The calls pass when no [open] is made while a descriptor
    is held, every [read] and [close] is on the descriptor held, and none is
    held at the end. *)
Fixpoint fd_monitor (w : world) (held : option Z) (cs : list syscall) : bool :=
  match cs with
  | [] =>
      match held with
      | Some _ => false
      | None => true
      end
  | Open p flags :: rest =>
      match held with
      | Some _ => false
      | None =>
          let fd := w_open w p flags in
          fd_monitor w (if 0 <=? fd then Some fd else None) rest
      end
  | Read fd _ :: rest =>
      match held with
      | Some h => (fd =? h) && fd_monitor w held rest
      | None => false
      end
  | Close fd :: rest =>
      match held with
      | Some h => (fd =? h) && fd_monitor w None rest
      | None => false
      end
  | _ :: rest => fd_monitor w held rest
  end.

(* ===================================================================== *)
(** ** The monad *)
(* ===================================================================== *)

Arguments int_wrap : simpl never.
Arguments entry_path : simpl never.

Lemma run_bind {A B} (m : M A) (f : A -> M B) (s : locals) :
  run (bind m f) s =
  (value (run (f (value (run m s))) (final (run m s))),
   final (run (f (value (run m s))) (final (run m s))),
   trace (run m s) ++ trace (run (f (value (run m s))) (final (run m s)))).
Proof.
  unfold run, value, final, trace. cbn. unfold M_bind.
  destruct (m s) as [[a s1] t1]. cbn.
  destruct (f a s1) as [[b s2] t2]. reflexivity.
Qed.

Lemma trace_bind {A B} (m : M A) (f : A -> M B) (s : locals) :
  trace (run (bind m f) s) =
  trace (run m s) ++ trace (run (f (value (run m s))) (final (run m s))).
Proof. rewrite run_bind. reflexivity. Qed.

Lemma final_bind {A B} (m : M A) (f : A -> M B) (s : locals) :
  final (run (bind m f) s) =
  final (run (f (value (run m s))) (final (run m s))).
Proof. rewrite run_bind. reflexivity. Qed.

Lemma value_bind {A B} (m : M A) (f : A -> M B) (s : locals) :
  value (run (bind m f) s) =
  value (run (f (value (run m s))) (final (run m s))).
Proof. rewrite run_bind. reflexivity. Qed.

(** A run is the triple of its three components. *)
Lemma run_eta {A} (m : M A) (s : locals) :
  run m s = (value (run m s), final (run m s), trace (run m s)).
Proof. unfold value, final, trace. destruct (run m s) as [[a s1] t]. reflexivity. Qed.

(* ===================================================================== *)
(** ** C strings and integers *)
(* ===================================================================== *)

Lemma strcmp_zero (a b : string) : (strcmp a b =? 0) = (a =? b)%string.
Proof.
  unfold strcmp. destruct (String.eqb_spec a b) as [E | N].
  - subst. pose proof (String.compare_antisym b b) as S.
    destruct (String.compare b b); cbn in S; try discriminate; reflexivity.
  - destruct (String.compare a b) eqn:C; try reflexivity.
    apply String.compare_eq_iff in C. contradiction.
Qed.

Lemma dot_test (d : string) :
  ((strcmp d "." =? 0) || (strcmp d ".." =? 0))%bool = is_dot d.
Proof. unfold is_dot. rewrite !strcmp_zero. reflexivity. Qed.

Lemma int_wrap_small (z : Z) :
  - 2 ^ 31 <= z <= INT_MAX -> int_wrap z = z.
Proof.
  unfold int_wrap, INT_MAX. intros H.
  rewrite Z.mod_small; lia.
Qed.

Lemma str_take_length (n : nat) (s : string) :
  String.length (str_take n s) = Nat.min n (String.length s).
Proof.
  revert s. induction n as [| k IH]; intros [| c r]; cbn; try reflexivity.
  rewrite IH. reflexivity.
Qed.

Lemma str_take_prefix (n : nat) (s : string) :
  exists rest, s = (str_take n s ++ rest)%string.
Proof.
  revert s. induction n as [| k IH]; intros s.
  - exists s. reflexivity.
  - destruct s as [| c r].
    + exists EmptyString. reflexivity.
    + destruct (IH r) as [rest E]. exists rest. cbn. rewrite <- E. reflexivity.
Qed.

Lemma str_take_all (n : nat) (s : string) :
  (String.length s <= n)%nat -> str_take n s = s.
Proof.
  revert s. induction n as [| k IH]; intros [| c r] H; cbn in *;
    try reflexivity; try lia.
  rewrite IH by lia. reflexivity.
Qed.

(* ===================================================================== *)
(** ** The loops against their traces *)
(* ===================================================================== *)

(** Unfold the calls and the monad down to triples. *)
Ltac unfold_calls :=
  unfold stat, lstat, access, open, read, close, sleep, opendir, closedir,
    print_kind, banner, printf, fprintf_stderr, emit, gets, modify,
    run, value, final, trace;
  cbn; unfold M_bind, M_ret; cbn.

Lemma scan_entry_dot (w : world) (d : string) (s : locals) :
  is_dot d = true -> run (scan_entry w d) s = (tt, s, []).
Proof.
  intros H. unfold scan_entry. rewrite dot_test, H. reflexivity.
Qed.

Lemma print_kind_run (s : locals) :
  run print_kind s = (tt, s, [kind_line (kind_of_stat (st s))]).
Proof.
  unfold kind_of_stat. unfold_calls.
  destruct (S_ISDIR (st_mode (st s))); [reflexivity |].
  destruct (S_ISREG (st_mode (st s))); reflexivity.
Qed.

Lemma scan_entry_run (w : world) (d : string) (s : locals) :
  is_dot d = false ->
  trace (run (scan_entry w d) s) = entry_events w (count s) d /\
  count (final (run (scan_entry w d) s)) = int_wrap (count s + 1) /\
  iteration (final (run (scan_entry w d) s)) = iteration s.
Proof.
  intros H. unfold scan_entry, entry_events, st_at_print.
  rewrite dot_test, H. generalize (entry_path d) as p. intros p.
  unfold_calls.
  destruct (w_stat w p) as [r |]; cbn.
  - destruct (w_lstat w p) as [r' |]; cbn;
      (destruct (count s <? 5); cbn; [| auto]);
      unfold kind_of_stat;
      (destruct (S_ISDIR _); [auto |]);
      (destruct (S_ISREG _); auto).
  - auto.
Qed.

Lemma readdir_loop_run (w : world) (stream : list string) :
  forall s : locals,
    trace (run (readdir_loop w stream) s) = readdir_events w (count s) stream /\
    count (final (run (readdir_loop w stream) s)) = count_after (count s) stream /\
    iteration (final (run (readdir_loop w stream) s)) = iteration s.
Proof.
  induction stream as [| d rest IH]; intros s.
  - repeat split.
  - cbn [readdir_loop readdir_events count_after].
    rewrite trace_bind, final_bind, trace_bind, final_bind.
    change (final (run (emit (Sys Readdir)) s)) with s.
    change (trace (run (emit (Sys Readdir)) s)) with [Sys Readdir].
    destruct (is_dot d) eqn:D.
    + rewrite (scan_entry_dot w d s D).
      change (final (tt, s, @nil event)) with s.
      change (trace (tt, s, @nil event)) with (@nil event).
      destruct (IH s) as (T & C & I). rewrite T, C, I. repeat split.
    + destruct (scan_entry_run w d s D) as (T & C & I).
      destruct (IH (final (run (scan_entry w d) s))) as (T' & C' & I').
      rewrite T, T', C', I', C, I. repeat split.
Qed.

Lemma sample_file_run (w : world) (p : string) (n : Z) (s : locals) :
  run (sample_file w p n) s =
  (if opened w p then int_wrap (n + 1) else n, s, sample_events w p).
Proof.
  unfold sample_file, sample_events, opened. unfold_calls.
  destruct (0 <=? w_open w p O_RDONLY); reflexivity.
Qed.

Lemma sample_loop_run (w : world) (paths : list string) :
  forall (n : Z) (s : locals),
    run (sample_loop w paths n) s =
    (files_read_after w n paths, s, flat_map (sample_events w) paths).
Proof.
  induction paths as [| p rest IH]; intros n s.
  - reflexivity.
  - cbn [sample_loop files_read_after flat_map].
    rewrite run_bind, sample_file_run.
    unfold value, final, trace. cbn [fst snd].
    rewrite IH. reflexivity.
Qed.

(** Rewriting rules for the components of a run. *)
Lemma trace_emit e s : trace (run (emit e) s) = [e].
Proof. reflexivity. Qed.
Lemma final_emit e s : final (run (emit e) s) = s.
Proof. reflexivity. Qed.
Lemma trace_modify f s : trace (run (modify f) s) = [].
Proof. reflexivity. Qed.
Lemma final_modify f s : final (run (modify f) s) = f s.
Proof. reflexivity. Qed.
Lemma trace_gets {A} (f : locals -> A) s : trace (run (gets f) s) = [].
Proof. reflexivity. Qed.
Lemma final_gets {A} (f : locals -> A) s : final (run (gets f) s) = s.
Proof. reflexivity. Qed.
Lemma value_gets {A} (f : locals -> A) s : value (run (gets f) s) = f s.
Proof. reflexivity. Qed.
Lemma trace_ret {A} (a : A) s : trace (run (ret a) s) = [].
Proof. reflexivity. Qed.
Lemma final_ret {A} (a : A) s : final (run (ret a) s) = s.
Proof. reflexivity. Qed.
Lemma value_ret {A} (a : A) s : value (run (ret a) s) = a.
Proof. reflexivity. Qed.

Lemma trace_readdir_loop w stream s :
  trace (run (readdir_loop w stream) s) = readdir_events w (count s) stream.
Proof. apply readdir_loop_run. Qed.
Lemma count_readdir_loop w stream s :
  count (final (run (readdir_loop w stream) s)) = count_after (count s) stream.
Proof. apply readdir_loop_run. Qed.
Lemma iteration_readdir_loop w stream s :
  iteration (final (run (readdir_loop w stream) s)) = iteration s.
Proof. apply readdir_loop_run. Qed.

Lemma trace_sample_loop w paths n s :
  trace (run (sample_loop w paths n) s) = flat_map (sample_events w) paths.
Proof. rewrite sample_loop_run. reflexivity. Qed.
Lemma final_sample_loop w paths n s :
  final (run (sample_loop w paths n) s) = s.
Proof. rewrite sample_loop_run. reflexivity. Qed.
Lemma value_sample_loop w paths n s :
  value (run (sample_loop w paths n) s) = files_read_after w n paths.
Proof. rewrite sample_loop_run. reflexivity. Qed.

Lemma count_set_count v s : count (set_count v s) = v.
Proof. reflexivity. Qed.
Lemma iteration_set_count v s : iteration (set_count v s) = iteration s.
Proof. reflexivity. Qed.
Lemma iteration_set_iteration v s : iteration (set_iteration v s) = v.
Proof. reflexivity. Qed.

Create Rewrite HintDb scan.
#[local] Hint Rewrite
  @trace_bind @final_bind @value_bind
  trace_emit final_emit trace_modify final_modify
  @trace_gets @final_gets @value_gets @trace_ret @final_ret @value_ret
  trace_readdir_loop count_readdir_loop iteration_readdir_loop
  trace_sample_loop final_sample_loop value_sample_loop
  count_set_count iteration_set_count iteration_set_iteration
  : scan.

Ltac scan_simpl :=
  unfold opendir, closedir, sleep, banner, printf, fprintf_stderr;
  autorewrite with scan.

(** One pass of the loop: the counter advances, and the trace is the banner
    followed by events that depend on the world alone. *)
Lemma loop_body_run (w : world) (s : locals) :
  trace (run (loop_body w) s) =
    banner_line (int_wrap (iteration s + 1)) :: pass_rest w /\
  iteration (final (run (loop_body w) s)) = int_wrap (iteration s + 1).
Proof.
  unfold loop_body, pass_rest. scan_simpl.
  destruct (w_opendir w "/var/log") as [errno | stream]; scan_simpl.
  - split; reflexivity.
  - split; reflexivity.
Qed.

(** Two passes in a row. *)
Lemma main_loop_cons (w : world) (ws : list world) (s : locals) :
  trace (run (main_loop (w :: ws)) s) =
  trace (run (loop_body w) s) ++
  trace (run (main_loop ws) (final (run (loop_body w) s))).
Proof. cbn [main_loop]. rewrite trace_bind. reflexivity. Qed.

(* ===================================================================== *)
(** ** Reading the traces of the loops *)
(* ===================================================================== *)

Lemma syscalls_app (a b : list event) :
  syscalls (a ++ b) = syscalls a ++ syscalls b.
Proof. apply flat_map_app. Qed.

Lemma printed_entries_app (a b : list event) :
  printed_entries (a ++ b) = printed_entries a ++ printed_entries b.
Proof. apply flat_map_app. Qed.

Lemma reported_probed_app (a b : list event) :
  reported_probed (a ++ b) = reported_probed a ++ reported_probed b.
Proof. apply flat_map_app. Qed.

Lemma reported_files_read_app (a b : list event) :
  reported_files_read (a ++ b) =
  reported_files_read a ++ reported_files_read b.
Proof. apply flat_map_app. Qed.

Lemma stderr_lines_app (a b : list event) :
  stderr_lines (a ++ b) = stderr_lines a ++ stderr_lines b.
Proof. apply flat_map_app. Qed.

Lemma syscalls_kind_line (k : kind) : syscalls [kind_line k] = [].
Proof. destruct k; reflexivity. Qed.

Lemma syscalls_entry_events (w : world) (c : Z) (d : string) :
  syscalls (entry_events w c d) = probes w d.
Proof.
  unfold entry_events, probes. generalize (entry_path d) as p. intros p.
  destruct (w_stat w p) as [r |]; [| reflexivity].
  rewrite syscalls_app. destruct (c <? 5); [| reflexivity].
  change (syscalls [Printf "    - %s " [ArgStr d];
                    kind_line (kind_of_stat (st_at_print w p r))])
    with (syscalls [kind_line (kind_of_stat (st_at_print w p r))]).
  rewrite syscalls_kind_line. reflexivity.
Qed.

Lemma syscalls_readdir_events (w : world) (stream : list string) :
  forall c : Z,
    syscalls (readdir_events w c stream) =
    flat_map (entry_calls w) stream ++ [Readdir].
Proof.
  induction stream as [| d rest IH]; intros c.
  - reflexivity.
  - cbn [readdir_events flat_map]. unfold entry_calls at 1.
    change (syscalls (Sys Readdir :: ?t)) with (Readdir :: syscalls t).
    destruct (is_dot d).
    + rewrite IH. reflexivity.
    + rewrite syscalls_app, syscalls_entry_events, IH.
      cbn [app]. rewrite <- app_assoc. reflexivity.
Qed.

Lemma syscalls_sample_events (w : world) (paths : list string) :
  syscalls (flat_map (sample_events w) paths) =
  flat_map (sample_calls w) paths.
Proof.
  induction paths as [| p rest IH]; [reflexivity |].
  cbn [flat_map]. rewrite syscalls_app, IH. f_equal.
  unfold sample_events, sample_calls.
  destruct (0 <=? w_open w p O_RDONLY); reflexivity.
Qed.

Lemma syscalls_pass_rest (w : world) : syscalls (pass_rest w) = pass_calls w.
Proof.
  unfold pass_rest, pass_calls.
  destruct (w_opendir w "/var/log") as [errno | stream]; [reflexivity |].
  rewrite !syscalls_app, syscalls_readdir_events, syscalls_sample_events.
  cbn. rewrite <- app_assoc. reflexivity.
Qed.

Lemma syscalls_loop_body (w : world) (s : locals) :
  syscalls (trace (run (loop_body w) s)) = pass_calls w.
Proof.
  rewrite (proj1 (loop_body_run w s)). apply syscalls_pass_rest.
Qed.

(** No call of a pass writes. *)
Lemma read_only_entry_calls (w : world) (d : string) :
  forallb read_only (entry_calls w d) = true.
Proof.
  unfold entry_calls, probes. destruct (is_dot d); [reflexivity |].
  destruct (w_stat w (entry_path d)); reflexivity.
Qed.

Lemma read_only_sample_calls (w : world) (p : string) :
  forallb read_only (sample_calls w p) = true.
Proof.
  unfold sample_calls. destruct (0 <=? w_open w p O_RDONLY); reflexivity.
Qed.

Lemma forallb_flat_map {A B} (f : B -> bool) (g : A -> list B) (l : list A) :
  (forall a, forallb f (g a) = true) -> forallb f (flat_map g l) = true.
Proof.
  intros H. induction l as [| a r IH]; [reflexivity |].
  cbn [flat_map]. rewrite forallb_app, H, IH. reflexivity.
Qed.

Lemma read_only_pass_calls (w : world) :
  forallb read_only (pass_calls w) = true.
Proof.
  unfold pass_calls. destruct (w_opendir w "/var/log"); [reflexivity |].
  cbn [forallb read_only andb]. rewrite !forallb_app.
  rewrite (forallb_flat_map _ _ _ (read_only_entry_calls w)).
  rewrite (forallb_flat_map _ _ _ (read_only_sample_calls w)).
  reflexivity.
Qed.

Lemma open_rdonly_pass_calls (w : world) :
  forallb open_rdonly (pass_calls w) = true.
Proof.
  unfold pass_calls. destruct (w_opendir w "/var/log"); [reflexivity |].
  cbn [forallb open_rdonly andb]. rewrite !forallb_app.
  rewrite forallb_flat_map, forallb_flat_map; [reflexivity | |].
  - intros p. unfold sample_calls.
    destruct (0 <=? w_open w p O_RDONLY); reflexivity.
  - intros d. unfold entry_calls, probes. destruct (is_dot d); [reflexivity |].
    destruct (w_stat w (entry_path d)); reflexivity.
Qed.

Section CallInvariant.

(** A property of calls that holds of the calls of every pass holds of all
    the calls of [main]. *)
Variable P : syscall -> bool.
Hypothesis P_pass : forall w : world, forallb P (pass_calls w) = true.

Lemma main_loop_calls (ws : list world) :
  forall s : locals,
    forallb P (syscalls (trace (run (main_loop ws) s))) = true.
Proof.
  induction ws as [| w rest IH]; intros s.
  - reflexivity.
  - rewrite main_loop_cons, syscalls_app, forallb_app, syscalls_loop_body.
    rewrite P_pass, IH. reflexivity.
Qed.

Lemma main_calls (ws : list world) (st0 : stat_t) :
  forallb P (syscalls (main ws st0)) = true.
Proof.
  unfold main. rewrite trace_bind, syscalls_app.
  change (syscalls (trace (run prologue (mk_locals 0 0 st0)))) with (@nil syscall).
  apply main_loop_calls.
Qed.

End CallInvariant.

(* ===================================================================== *)
(** ** Counting and printing *)
(* ===================================================================== *)

Lemma count_after_real (stream : list string) :
  forall c : Z,
    0 <= c ->
    c + Z.of_nat (List.length (real_entries stream)) <= INT_MAX ->
    count_after c stream = c + Z.of_nat (List.length (real_entries stream)).
Proof.
  unfold real_entries.
  induction stream as [| d rest IH]; intros c H0 H;
    cbn [count_after filter] in *.
  - cbn. lia.
  - destruct (is_dot d); cbn [negb] in *.
    + apply IH; assumption.
    + cbn [List.length] in *. rewrite int_wrap_small by (unfold INT_MAX in *; lia).
      rewrite IH by lia. lia.
Qed.

Lemma name_of_kind_line (k : kind) : name_of (kind_line k) = [].
Proof. destruct k; reflexivity. Qed.

Lemma probed_of_kind_line (k : kind) : probed_of (kind_line k) = [].
Proof. destruct k; reflexivity. Qed.

Lemma printed_entry_events (w : world) (c : Z) (d : string) :
  printed_entries (entry_events w c d) =
  if (stat_ok w d && (c <? 5))%bool then [d] else [].
Proof.
  unfold entry_events, stat_ok. generalize (entry_path d) as p. intros p.
  destruct (w_stat w p) as [r |]; [| reflexivity].
  rewrite printed_entries_app. cbn [andb].
  destruct (c <? 5); [| reflexivity].
  unfold printed_entries. cbn [flat_map]. rewrite name_of_kind_line.
  reflexivity.
Qed.

Lemma reported_probed_entry_events (w : world) (c : Z) (d : string) :
  reported_probed (entry_events w c d) = [].
Proof.
  unfold entry_events. generalize (entry_path d) as p. intros p.
  destruct (w_stat w p) as [r |]; [| reflexivity].
  rewrite reported_probed_app. destruct (c <? 5); [| reflexivity].
  unfold reported_probed. cbn [flat_map]. rewrite probed_of_kind_line.
  reflexivity.
Qed.

Lemma reported_probed_readdir_events (w : world) (stream : list string) :
  forall c : Z, reported_probed (readdir_events w c stream) = [].
Proof.
  induction stream as [| d rest IH]; intros c; [reflexivity |].
  cbn [readdir_events].
  change (reported_probed (Sys Readdir :: ?t)) with (reported_probed t).
  destruct (is_dot d); [apply IH |].
  rewrite reported_probed_app, reported_probed_entry_events, IH. reflexivity.
Qed.

Lemma printed_readdir_events (w : world) (stream : list string) :
  forall c : Z,
    0 <= c ->
    c + Z.of_nat (List.length (real_entries stream)) <= INT_MAX ->
    printed_entries (readdir_events w c stream) =
    filter (stat_ok w) (firstn (Z.to_nat (5 - c)) (real_entries stream)).
Proof.
  unfold real_entries.
  induction stream as [| d rest IH]; intros c H0 H; cbn [readdir_events filter].
  - rewrite firstn_nil. reflexivity.
  - change (printed_entries (Sys Readdir :: ?t)) with (printed_entries t).
    cbn [filter] in H. destruct (is_dot d); cbn [negb] in *.
    + apply IH; assumption.
    + cbn [List.length] in H.
      rewrite printed_entries_app, printed_entry_events.
      rewrite int_wrap_small by (unfold INT_MAX in *; lia).
      rewrite IH by lia.
      destruct (Z.ltb_spec c 5) as [Lt | Ge].
      * replace (Z.to_nat (5 - c)) with (S (Z.to_nat (5 - (c + 1)))) by lia.
        cbn [firstn filter]. rewrite andb_true_r.
        destruct (stat_ok w d); reflexivity.
      * replace (Z.to_nat (5 - c)) with O by lia.
        replace (Z.to_nat (5 - (c + 1))) with O by lia.
        rewrite andb_false_r. reflexivity.
Qed.

Lemma sample_events_quiet (w : world) (paths : list string) :
  printed_entries (flat_map (sample_events w) paths) = [] /\
  reported_probed (flat_map (sample_events w) paths) = [] /\
  reported_files_read (flat_map (sample_events w) paths) = [] /\
  stderr_lines (flat_map (sample_events w) paths) = [].
Proof.
  induction paths as [| p rest (IH1 & IH2 & IH3 & IH4)];
    [repeat split |].
  cbn [flat_map].
  rewrite printed_entries_app, reported_probed_app,
    reported_files_read_app, stderr_lines_app, IH1, IH2, IH3, IH4.
  unfold sample_events.
  destruct (0 <=? w_open w p O_RDONLY); repeat split.
Qed.

Lemma files_read_after_count (w : world) (paths : list string) :
  forall n : Z,
    0 <= n ->
    n + Z.of_nat (List.length paths) <= INT_MAX ->
    files_read_after w n paths =
    n + Z.of_nat (List.length (filter (opened w) paths)).
Proof.
  induction paths as [| p rest IH]; intros n H0 H;
    cbn [files_read_after filter].
  - cbn. lia.
  - cbn [List.length] in H. destruct (opened w p).
    + rewrite int_wrap_small by (unfold INT_MAX in *; lia).
      rewrite IH by lia. cbn [List.length]. lia.
    + apply IH; lia.
Qed.

Lemma files_read_total (w : world) :
  files_read_after w 0 log_files =
  Z.of_nat (List.length (filter (opened w) log_files)).
Proof.
  rewrite files_read_after_count; [reflexivity | lia |].
  unfold INT_MAX. cbn. lia.
Qed.

Lemma printed_loop_body (w : world) (s : locals) :
  Z.of_nat (List.length (entries_of w)) <= INT_MAX ->
  printed_entries (trace (run (loop_body w) s)) =
  filter (stat_ok w) (firstn 5 (entries_of w)).
Proof.
  intros H. rewrite (proj1 (loop_body_run w s)).
  change (printed_entries (banner_line ?i :: ?t)) with (printed_entries t).
  unfold pass_rest, entries_of in *.
  destruct (w_opendir w "/var/log") as [errno | stream]; [reflexivity |].
  rewrite !printed_entries_app.
  rewrite printed_readdir_events by lia.
  rewrite (proj1 (sample_events_quiet w log_files)).
  change (printed_entries pass_head) with (@nil string).
  change (printed_entries (pass_middle ?c)) with (@nil string).
  change (printed_entries (pass_epilogue ?c)) with (@nil string).
  cbn [app]. rewrite app_nil_r. reflexivity.
Qed.

Lemma reported_probed_loop_body (w : world) (s : locals) (stream : list string) :
  w_opendir w "/var/log" = inr stream ->
  reported_probed (trace (run (loop_body w) s)) = [count_after 0 stream].
Proof.
  intros O. rewrite (proj1 (loop_body_run w s)).
  change (reported_probed (banner_line ?i :: ?t)) with (reported_probed t).
  unfold pass_rest. rewrite O. rewrite !reported_probed_app.
  rewrite reported_probed_readdir_events.
  rewrite (proj1 (proj2 (sample_events_quiet w log_files))).
  reflexivity.
Qed.

Lemma reported_files_read_readdir_events (w : world) (stream : list string) :
  forall c : Z, reported_files_read (readdir_events w c stream) = [].
Proof.
  induction stream as [| d rest IH]; intros c; [reflexivity |].
  cbn [readdir_events].
  change (reported_files_read (Sys Readdir :: ?t))
    with (reported_files_read t).
  destruct (is_dot d); [apply IH |].
  rewrite reported_files_read_app, IH, app_nil_r.
  unfold entry_events. destruct (w_stat w (entry_path d)); [| reflexivity].
  rewrite reported_files_read_app. destruct (c <? 5); [| reflexivity].
  destruct (kind_of_stat _); reflexivity.
Qed.

Lemma reported_files_read_loop_body (w : world) (s : locals)
      (stream : list string) :
  w_opendir w "/var/log" = inr stream ->
  reported_files_read (trace (run (loop_body w) s)) =
  [Z.of_nat (List.length (filter (opened w) log_files))].
Proof.
  intros O. rewrite (proj1 (loop_body_run w s)).
  change (reported_files_read (banner_line ?i :: ?t))
    with (reported_files_read t).
  unfold pass_rest. rewrite O. rewrite !reported_files_read_app.
  rewrite reported_files_read_readdir_events.
  rewrite (proj1 (proj2 (proj2 (sample_events_quiet w log_files)))).
  rewrite files_read_total. reflexivity.
Qed.

Lemma open_calls_entries (w : world) (stream : list string) :
  filter open_call (flat_map (entry_calls w) stream) = [].
Proof.
  induction stream as [| d rest IH]; [reflexivity |].
  cbn [flat_map]. rewrite filter_app, IH, app_nil_r.
  unfold entry_calls, probes. destruct (is_dot d); [reflexivity |].
  destruct (w_stat w (entry_path d)); reflexivity.
Qed.

Lemma open_calls_samples (w : world) (paths : list string) :
  filter open_call (flat_map (sample_calls w) paths) =
  map (fun p => Open p O_RDONLY) paths.
Proof.
  induction paths as [| p rest IH]; [reflexivity |].
  cbn [flat_map map]. rewrite filter_app, IH.
  unfold sample_calls. destruct (0 <=? w_open w p O_RDONLY); reflexivity.
Qed.

Lemma open_calls_loop_body (w : world) (s : locals) (stream : list string) :
  w_opendir w "/var/log" = inr stream ->
  open_calls (trace (run (loop_body w) s)) =
  map (fun p => Open p O_RDONLY) log_files.
Proof.
  intros O. unfold open_calls. rewrite syscalls_loop_body.
  unfold pass_calls. rewrite O. cbn [filter open_call].
  rewrite !filter_app, open_calls_entries, open_calls_samples.
  cbn [filter open_call app]. apply app_nil_r.
Qed.

(* ===================================================================== *)
(** ** The scenario of the specification *)
(* ===================================================================== *)

Example scenario_totals :
  let t := trace (run (loop_body (Env.of_fs Env.scenario)) Env.s0) in
  reported_probed t = [2] /\
  reported_files_read t = [1] /\
  entry_lines t = [("a.log", RegularFile 100); ("sub", Directory)] /\
  In (Printf "    - %s (%ld bytes read)\n"
        [ArgStr "/var/log/messages"; ArgInt 50]) t.
Proof.
  vm_compute. repeat split.
  repeat (first [left; reflexivity | right]).
Qed.

(* ===================================================================== *)
(** ** Properties of the scanner *)
(* ===================================================================== *)

(** C1.  Whatever the worlds and however many passes [main] runs, every
    call it issues is one that leaves all filesystem objects as they are:
    directory open, enumeration and close, the three metadata probes, reads
    and closes, and [open] with none of the flags that write, create,
    truncate or append; indeed every [open] passes exactly [O_RDONLY]. *)
Theorem C1_read_only :
  forall (ws : list world) (st0 : stat_t),
    forallb read_only (syscalls (main ws st0)) = true /\
    forallb open_rdonly (syscalls (main ws st0)) = true.
Proof.
  intros ws st0. split.
  - apply main_calls. exact read_only_pass_calls.
  - apply main_calls. exact open_rdonly_pass_calls.
Qed.

(** C2, on the input where the code departs from it.  [/var/log/journal]
    is a symbolic link to a directory and [/var/log/latest.log] one to a
    regular file of 100 bytes: the symlink-following query succeeds on both
    and reports a directory and a file of 100 bytes, yet the lines printed
    for the two entries say "(other)", because [lstat] has stored its own
    result in [st] before the kind is read. *)
Theorem C2_symlink_kind_from_lstat :
  let w := Env.of_fs Env.with_link in
  let followed := fun d => option_map kind_of_stat (w_stat w (entry_path d)) in
  followed "journal" = Some Directory /\
  followed "latest.log" = Some (RegularFile 100) /\
  entry_lines (trace (run (loop_body w) Env.s0)) =
    [("journal", Other); ("latest.log", Other)].
Proof. vm_compute. repeat split. Qed.

(** The kind printed is the one of the symlink-following query whenever the
    non-following query gives the same answer (the entry is not a symbolic
    link) or fails. *)
Lemma kind_from_stat_unless_symlink (w : world) (d : string) (s : locals)
      (r : stat_t) :
  is_dot d = false ->
  count s < 5 ->
  w_stat w (entry_path d) = Some r ->
  w_lstat w (entry_path d) = Some r \/ w_lstat w (entry_path d) = None ->
  entry_lines (trace (run (scan_entry w d) s)) = [(d, kind_of_stat r)].
Proof.
  intros D C S L.
  rewrite (proj1 (scan_entry_run w d s D)).
  unfold entry_events, st_at_print. rewrite S.
  destruct (Z.ltb_spec (count s) 5); [| lia].
  assert (E : match w_lstat w (entry_path d) with
              | Some r' => r'
              | None => r
              end = r) by (destruct L as [L | L]; rewrite L; reflexivity).
  rewrite E. destruct (kind_of_stat r); reflexivity.
Qed.

(** C3 as stated fails: for the dangling link [old] the symlink-following
    query fails and is the only probe issued. *)
Lemma C3_counterexample :
  let w := Env.of_fs Env.dangling_first in
  is_dot "old" = false /\
  w_stat w (entry_path "old") = None /\
  syscalls (trace (run (scan_entry w "old") Env.s0)) <> three_probes "old".
Proof. vm_compute. repeat split. discriminate. Qed.

(** C3, amended.  In the [readdir] loop every entry other than "." and ".."
    is probed with the symlink-following query first; when that query
    succeeds the non-following query and the access check for [R_OK] follow
    in this order, and when it fails no other probe is issued for the
    entry. *)
Theorem C3_probe_order :
  forall (w : world) (stream : list string) (s : locals),
    syscalls (trace (run (readdir_loop w stream) s)) =
      flat_map (entry_calls w) stream ++ [Readdir] /\
    (forall d : string,
        entry_calls w d =
        Readdir :: syscalls (trace (run (scan_entry w d) s))) /\
    (forall (d : string) (s' : locals),
        syscalls (trace (run (scan_entry w d) s')) =
        if is_dot d then []
        else if stat_ok w d then three_probes d
        else [Stat (entry_path d)]).
Proof.
  intros w stream s.
  assert (E : forall (d : string) (s' : locals),
             syscalls (trace (run (scan_entry w d) s')) =
             if is_dot d then [] else probes w d).
  { intros d s'. destruct (is_dot d) eqn:D.
    - rewrite (scan_entry_dot w d s' D). reflexivity.
    - rewrite (proj1 (scan_entry_run w d s' D)).
      apply syscalls_entry_events. }
  repeat split.
  - rewrite trace_readdir_loop. apply syscalls_readdir_events.
  - intros d. rewrite E. reflexivity.
  - intros d s'. rewrite E. unfold probes, stat_ok, three_probes.
    destruct (is_dot d); [reflexivity |].
    destruct (w_stat w (entry_path d)); reflexivity.
Qed.

(** C4.  When the directory does not open, the pass logs the error on
    standard error, issues no call but the failed [opendir] and the sleep
    of 10 seconds, advances the counter, and the loop goes on with the next
    pass. *)
Theorem C4_opendir_failure_nonfatal :
  forall (w : world) (ws : list world) (s : locals) (errno : Z),
    w_opendir w "/var/log" = inl errno ->
    0 <= iteration s < INT_MAX ->
    let r := run (loop_body w) s in
    trace r =
      [ banner_line (iteration s + 1);
        Printf "[1] Opening /var/log directory...\n" [];
        Sys (Opendir "/var/log");
        Fprintf_stderr "ERROR: Failed to open /var/log: %s\n"
          [ArgStr (w_strerror w errno)];
        Sys (Sleep 10) ] /\
    iteration (final r) = iteration s + 1 /\
    trace (run (main_loop (w :: ws)) s) =
      trace r ++ trace (run (main_loop ws) (final r)).
Proof.
  intros w ws s errno O I r. subst r.
  destruct (loop_body_run w s) as (T & N).
  rewrite int_wrap_small in T, N by (unfold INT_MAX in *; lia).
  repeat split.
  - rewrite T. unfold pass_rest. rewrite O. reflexivity.
  - exact N.
  - apply main_loop_cons.
Qed.

Lemma C4_witness :
  let w := Env.of_fs Env.no_var_log in
  let r := run (loop_body w) Env.s0 in
  trace r =
    [ banner_line 1;
      Printf "[1] Opening /var/log directory...\n" [];
      Sys (Opendir "/var/log");
      Fprintf_stderr "ERROR: Failed to open /var/log: %s\n"
        [ArgStr "No such file or directory"];
      Sys (Sleep 10) ] /\
  iteration (final r) = 1 /\
  trace (run (main_loop [w; w]) Env.s0) =
    trace r ++ trace (run (main_loop [w]) (final r)).
Proof.
  apply (C4_opendir_failure_nonfatal
           (Env.of_fs Env.no_var_log) [Env.of_fs Env.no_var_log] Env.s0
           ENOENT).
  - reflexivity.
  - vm_compute. split; [discriminate | reflexivity].
Defined.

(** C5.  In a pass that opens the directory, the total reported is the
    number of entries other than "." and "..", whether their
    symlink-following query succeeded or not: each turn of the loop on such
    an entry adds one to [count], on either branch.  Only entries whose
    query succeeded have a per-entry line. *)
Theorem C5_every_entry_counted_once :
  forall (w : world) (s : locals) (stream : list string),
    w_opendir w "/var/log" = inr stream ->
    Z.of_nat (List.length (real_entries stream)) <= INT_MAX ->
    let t := trace (run (loop_body w) s) in
    reported_probed t = [Z.of_nat (List.length (real_entries stream))] /\
    (forall (d : string) (s' : locals),
        count (final (run (scan_entry w d) s')) =
        if is_dot d then count s' else int_wrap (count s' + 1)) /\
    (forall d : string, In d (printed_entries t) -> stat_ok w d = true).
Proof.
  intros w s stream O B t. subst t. repeat split.
  - rewrite (reported_probed_loop_body w s stream O).
    rewrite count_after_real by lia. reflexivity.
  - intros d s'. destruct (is_dot d) eqn:D.
    + rewrite (scan_entry_dot w d s' D). reflexivity.
    + apply (scan_entry_run w d s' D).
  - intros d I. rewrite printed_loop_body in I.
    + apply filter_In in I. apply I.
    + unfold entries_of. rewrite O. exact B.
Qed.

Lemma C5_witness :
  let w := Env.of_fs Env.dangling_first in
  let t := trace (run (loop_body w) Env.s0) in
  reported_probed t = [6] /\
  (forall (d : string) (s' : locals),
      count (final (run (scan_entry w d) s')) =
      if is_dot d then count s' else int_wrap (count s' + 1)) /\
  (forall d : string, In d (printed_entries t) -> stat_ok w d = true).
Proof.
  intros w t.
  apply (C5_every_entry_counted_once
           (Env.of_fs Env.dangling_first) Env.s0
           ["."; ".."; "old"; "a"; "b"; "c"; "d"; "e"]).
  - reflexivity.
  - vm_compute. discriminate.
Defined.

(** C6 as stated fails: after an entry whose query fails, five entries
    classify and only four of them are printed. *)
Lemma C6_counterexample :
  let w := Env.of_fs Env.dangling_first in
  let t := trace (run (loop_body w) Env.s0) in
  first_five_classified w = ["a"; "b"; "c"; "d"; "e"] /\
  printed_entries t = ["a"; "b"; "c"; "d"] /\
  printed_entries t <> first_five_classified w.
Proof. vm_compute. repeat split. discriminate. Qed.

(** C6, amended.  The entries with a per-entry line are those among the
    first five entries of the directory (not counting "." and "..") whose
    symlink-following query succeeded, in order; there are at most five. *)
Theorem C6_first_five_entries :
  forall (w : world) (s : locals),
    Z.of_nat (List.length (entries_of w)) <= INT_MAX ->
    let t := trace (run (loop_body w) s) in
    printed_entries t = filter (stat_ok w) (firstn 5 (entries_of w)) /\
    (List.length (printed_entries t) <= 5)%nat.
Proof.
  intros w s B t. subst t. rewrite (printed_loop_body w s B). split.
  - reflexivity.
  - etransitivity; [apply filter_length_le |]. apply firstn_le_length.
Qed.

Lemma C6_witness :
  let w := Env.of_fs Env.dangling_first in
  let t := trace (run (loop_body w) Env.s0) in
  printed_entries t = filter (stat_ok w) (firstn 5 (entries_of w)) /\
  (List.length (printed_entries t) <= 5)%nat.
Proof.
  intros w t.
  apply (C6_first_five_entries (Env.of_fs Env.dangling_first) Env.s0).
  vm_compute. discriminate.
Defined.

(** C7 as stated fails: in a pass that does not open the directory no log
    file is attempted. *)
Lemma C7_counterexample :
  let w := Env.of_fs Env.no_var_log in
  let t := trace (run (loop_body w) Env.s0) in
  open_calls t = [] /\
  open_calls t <> map (fun p => Open p O_RDONLY) log_files.
Proof. vm_compute. split; [reflexivity | discriminate]. Qed.

(** C7, amended.  In every pass that opens the directory, the ten paths of
    [log_files] are each opened once with [O_RDONLY], in the order of the
    list, whatever the earlier opens returned; an open that fails leaves
    nothing else in the trace, one that succeeds is followed by one [read]
    of 1024 bytes, the [close] and the line with the bytes read; the number
    of opens that succeeded is reported.  In a pass that does not open the
    directory no log file is attempted: there is no [open], [read] or
    [close], and no total is reported. *)
Theorem C7_sample_all_log_files :
  forall (w : world) (s : locals),
    let t := trace (run (loop_body w) s) in
    let sampled := fun p : string => trace (run (sample_file w p 0) s) in
    match w_opendir w "/var/log" with
    | inl _ =>
        open_calls t = [] /\
        filter file_call (syscalls t) = [] /\
        reported_files_read t = []
    | inr _ =>
        List.length log_files = 10%nat /\
        open_calls t = map (fun p => Open p O_RDONLY) log_files /\
        (exists before : list event,
            t = before ++ flat_map sampled log_files ++
                pass_epilogue
                  (Z.of_nat (List.length (filter (opened w) log_files)))) /\
        (forall p : string,
            sampled p =
            Sys (Open p O_RDONLY) ::
            (if 0 <=? w_open w p O_RDONLY
             then [Sys (Read (w_open w p O_RDONLY) 1024);
                   Sys (Close (w_open w p O_RDONLY));
                   Printf "    - %s (%ld bytes read)\n"
                     [ArgStr p; ArgInt (w_read w p 1024)]]
             else [])) /\
        reported_files_read t =
          [Z.of_nat (List.length (filter (opened w) log_files))]
    end.
Proof.
  intros w s t sampled. subst t sampled.
  destruct (w_opendir w "/var/log") as [errno | stream] eqn:O.
  - unfold open_calls. rewrite syscalls_loop_body.
    rewrite (proj1 (loop_body_run w s)).
    unfold pass_calls, pass_rest. rewrite O. repeat split.
  - repeat split.
    + apply (open_calls_loop_body w s stream O).
    + rewrite (proj1 (loop_body_run w s)). unfold pass_rest. rewrite O.
      rewrite files_read_total.
      exists (banner_line (int_wrap (iteration s + 1)) ::
              pass_head ++ readdir_events w 0 stream ++
              pass_middle (count_after 0 stream)).
      replace (flat_map (fun p => trace (run (sample_file w p 0) s)) log_files)
        with (flat_map (sample_events w) log_files)
        by (apply flat_map_ext; intros p; rewrite sample_file_run; reflexivity).
      cbn [app]. rewrite <- !app_assoc. reflexivity.
    + intros p. rewrite sample_file_run. reflexivity.
    + apply (reported_files_read_loop_body w s stream O).
Qed.

Lemma C7_witness :
  let opened_pass :=
    trace (run (loop_body (Env.of_fs Env.scenario)) Env.s0) in
  let failed :=
    trace (run (loop_body (Env.of_fs Env.no_var_log)) Env.s0) in
  (open_calls opened_pass = map (fun p => Open p O_RDONLY) log_files /\
   reported_files_read opened_pass = [1]) /\
  (open_calls failed = [] /\
   filter file_call (syscalls failed) = [] /\
   reported_files_read failed = []).
Proof.
  intros opened_pass failed. split.
  - destruct (C7_sample_all_log_files (Env.of_fs Env.scenario) Env.s0)
      as (_ & O & _ & _ & R).
    split; [exact O | exact R].
  - exact (C7_sample_all_log_files (Env.of_fs Env.no_var_log) Env.s0).
Defined.

(** C8.  The trace of a pass is the banner, which shows the counter,
    followed by events that are a function of the world alone.  Two passes
    in a row against the same world therefore give the same per-entry
    lines and the same totals, and from any two states the passes differ in
    their banner at most. *)
Theorem C8_pass_deterministic :
  forall (w : world) (s s' : locals),
    let r1 := run (loop_body w) s in
    let r2 := run (loop_body w) (final r1) in
    trace (run (main_loop [w; w]) s) = trace r1 ++ trace r2 /\
    entry_lines (trace r1) = entry_lines (trace r2) /\
    reported_probed (trace r1) = reported_probed (trace r2) /\
    reported_files_read (trace r1) = reported_files_read (trace r2) /\
    tl (trace r1) = tl (trace r2) /\
    trace (run (loop_body w) s') =
      banner_line (int_wrap (iteration s' + 1)) :: tl (trace r1).
Proof.
  intros w s s' r1 r2. subst r1 r2.
  set (s1 := final (run (loop_body w) s)).
  rewrite (proj1 (loop_body_run w s)), (proj1 (loop_body_run w s1)),
    (proj1 (loop_body_run w s')).
  repeat split.
  rewrite main_loop_cons, main_loop_cons.
  fold s1.
  rewrite (proj1 (loop_body_run w s)), (proj1 (loop_body_run w s1)).
  change (trace (run (main_loop []) ?x)) with (@nil event).
  rewrite app_nil_r. reflexivity.
Qed.

(** C9.  A log file that opens is counted and gets its line whatever
    [read] returns, a negative result included; a log file that does not
    open leaves nothing but the call to [open]. *)
Theorem C9_read_failure_still_counted :
  forall (w : world) (p : string) (n : Z) (s : locals),
    0 <= w_open w p O_RDONLY ->
    w_read w p sizeof_buf < 0 ->
    0 <= n < INT_MAX ->
    let line :=
      Printf "    - %s (%ld bytes read)\n" [ArgStr p; ArgInt (w_read w p 1024)]
    in
    run (sample_file w p n) s =
      (n + 1, s,
       [ Sys (Open p O_RDONLY);
         Sys (Read (w_open w p O_RDONLY) 1024);
         Sys (Close (w_open w p O_RDONLY));
         line ]) /\
    (forall (stream : list string) (s0 : locals),
        w_opendir w "/var/log" = inr stream ->
        In p log_files ->
        let t := trace (run (loop_body w) s0) in
        In line t /\
        In p (filter (opened w) log_files) /\
        reported_files_read t =
          [Z.of_nat (List.length (filter (opened w) log_files))]) /\
    (forall (q : string) (m : Z) (s' : locals),
        w_open w q O_RDONLY < 0 ->
        run (sample_file w q m) s' = (m, s', [Sys (Open q O_RDONLY)])).
Proof.
  intros w p n s F R N line. subst line.
  assert (Op : opened w p = true) by (apply Z.leb_le; exact F).
  split; [| split].
  - rewrite sample_file_run. unfold sample_events. rewrite Op.
    unfold opened in Op. rewrite Op.
    rewrite int_wrap_small by (unfold INT_MAX in *; lia). reflexivity.
  - intros stream s0 O I t. subst t. split; [| split].
    + rewrite (proj1 (loop_body_run w s0)). right.
      unfold pass_rest. rewrite O.
      apply in_or_app. right. apply in_or_app. right.
      apply in_or_app. right. apply in_or_app. left.
      apply in_flat_map. exists p. split; [assumption |].
      unfold sample_events. unfold opened in Op. rewrite Op.
      right. right. right. left. reflexivity.
    + apply filter_In. split; assumption.
    + apply (reported_files_read_loop_body w s0 stream O).
  - intros q m s' Fq. rewrite sample_file_run. unfold sample_events, opened.
    destruct (Z.leb_spec 0 (w_open w q O_RDONLY)); [lia | reflexivity].
Qed.

Lemma C9_witness :
  let w := Env.of_fs Env.messages_is_dir in
  run (sample_file w "/var/log/messages" 0) Env.s0 =
    (1, Env.s0,
     [ Sys (Open "/var/log/messages" O_RDONLY);
       Sys (Read 3 1024);
       Sys (Close 3);
       Printf "    - %s (%ld bytes read)\n"
         [ArgStr "/var/log/messages"; ArgInt (-1)] ]).
Proof.
  intros w.
  apply (C9_read_failure_still_counted
           (Env.of_fs Env.messages_is_dir) "/var/log/messages" 0 Env.s0).
  - vm_compute. discriminate.
  - vm_compute. reflexivity.
  - vm_compute. split; [discriminate | reflexivity].
Defined.

(** C10.  The path of an entry is the first 511 characters of the target
    directory joined with the name: with its terminating NUL it fits the
    512 bytes of [path], it is the whole joined path when that has at most
    511 characters and a proper prefix of it otherwise, and it is the path
    the probes are issued on; nothing is written to standard error. *)
Theorem C10_path_bounded :
  forall (w : world) (d : string) (s : locals),
    let full := ("/var/log/" ++ d)%string in
    (bytes_used (entry_path d) <= sizeof_path)%nat /\
    String.length (entry_path d) = Nat.min 511 (String.length full) /\
    entry_path d =
      (if (String.length full <=? 511)%nat then full else str_take 511 full) /\
    (exists rest : string, full = (entry_path d ++ rest)%string) /\
    syscalls (trace (run (scan_entry w d) s)) =
      (if is_dot d then []
       else if stat_ok w d then three_probes d
       else [Stat (entry_path d)]) /\
    stderr_lines (trace (run (scan_entry w d) s)) = [].
Proof.
  intros w d s full.
  assert (E : entry_path d = str_take 511 full) by reflexivity.
  repeat split.
  - unfold bytes_used, sizeof_path. rewrite E, str_take_length. lia.
  - rewrite E. apply str_take_length.
  - rewrite E. destruct (Nat.leb_spec (String.length full) 511) as [L | G].
    + apply str_take_all. exact L.
    + reflexivity.
  - rewrite E. apply str_take_prefix.
  - destruct (is_dot d) eqn:D.
    + rewrite (scan_entry_dot w d s D). reflexivity.
    + rewrite (proj1 (scan_entry_run w d s D)), syscalls_entry_events.
      unfold probes, stat_ok, three_probes.
      destruct (w_stat w (entry_path d)); reflexivity.
  - destruct (is_dot d) eqn:D.
    + rewrite (scan_entry_dot w d s D). reflexivity.
    + rewrite (proj1 (scan_entry_run w d s D)).
      unfold entry_events.
      destruct (w_stat w (entry_path d)); [| reflexivity].
      rewrite stderr_lines_app. destruct (count s <? 5); [| reflexivity].
      destruct (kind_of_stat _); reflexivity.
Qed.

(* ===================================================================== *)
(** ** Handles, probes and totals of a pass *)
(* ===================================================================== *)

Lemma filter_flat_map {A B} (f : B -> bool) (g : A -> list B) (l : list A) :
  filter f (flat_map g l) = flat_map (fun a => filter f (g a)) l.
Proof.
  induction l as [| a r IH]; [reflexivity |].
  cbn [flat_map]. rewrite filter_app, IH. reflexivity.
Qed.

Lemma flat_map_nil {A B} (g : A -> list B) (l : list A) :
  (forall a, g a = []) -> flat_map g l = [].
Proof.
  intros H. induction l as [| a r IH]; [reflexivity |].
  cbn [flat_map]. rewrite H, IH. reflexivity.
Qed.

Lemma flat_map_if_singleton {A B} (c : A -> bool) (h : A -> B) (l : list A) :
  flat_map (fun a => if c a then [h a] else []) l = map h (filter c l).
Proof.
  induction l as [| a r IH]; [reflexivity |].
  cbn [flat_map filter]. rewrite IH. destruct (c a); reflexivity.
Qed.

(** What the calls of the entries and of the log files hold. *)
Lemma entry_calls_no_file (w : world) (stream : list string) :
  filter file_call (flat_map (entry_calls w) stream) = [] /\
  filter is_closedir (flat_map (entry_calls w) stream) = [] /\
  filter is_sleep (flat_map (entry_calls w) stream) = [].
Proof.
  rewrite !filter_flat_map.
  repeat split; apply flat_map_nil; intros d; unfold entry_calls, probes;
    (destruct (is_dot d); [reflexivity |]);
    destruct (w_stat w (entry_path d)); reflexivity.
Qed.

Lemma sample_calls_only_file (w : world) (paths : list string) :
  filter file_call (flat_map (sample_calls w) paths) =
    flat_map (sample_calls w) paths /\
  filter uses_dir (flat_map (sample_calls w) paths) = [] /\
  filter is_sleep (flat_map (sample_calls w) paths) = [] /\
  filter is_stat (flat_map (sample_calls w) paths) = [] /\
  filter is_lstat (flat_map (sample_calls w) paths) = [] /\
  filter is_access (flat_map (sample_calls w) paths) = [].
Proof.
  rewrite !filter_flat_map. split.
  - apply flat_map_ext. intros p. unfold sample_calls.
    destruct (0 <=? w_open w p O_RDONLY); reflexivity.
  - repeat split; apply flat_map_nil; intros p; unfold sample_calls;
      destruct (0 <=? w_open w p O_RDONLY); reflexivity.
Qed.


(** [readdir] is called once for every name of the stream and once more,
    for the [NULL] that ends the loop. *)
Theorem readdir_called_until_null :
  forall (w : world) (stream : list string) (s : locals),
    filter is_readdir (syscalls (trace (run (readdir_loop w stream) s))) =
    repeat Readdir (S (List.length stream)).
Proof.
  intros w stream s.
  rewrite trace_readdir_loop, syscalls_readdir_events.
  rewrite filter_app, filter_flat_map.
  induction stream as [| d rest IH]; [reflexivity |].
  cbn [flat_map List.length repeat].
  replace (filter is_readdir (entry_calls w d)) with [Readdir].
  - cbn [app]. rewrite IH. reflexivity.
  - unfold entry_calls, probes. destruct (is_dot d); [reflexivity |].
    destruct (w_stat w (entry_path d)); reflexivity.
Qed.

Lemma probe_calls_entries (w : world) (stream : list string) :
  filter is_stat (flat_map (entry_calls w) stream) =
    map (fun d => Stat (entry_path d)) (real_entries stream) /\
  filter is_lstat (flat_map (entry_calls w) stream) =
    map (fun d => Lstat (entry_path d))
        (filter (stat_ok w) (real_entries stream)) /\
  filter is_access (flat_map (entry_calls w) stream) =
    map (fun d => Access (entry_path d) R_OK)
        (filter (stat_ok w) (real_entries stream)).
Proof.
  unfold real_entries.
  induction stream as [| d rest (IS & IL & IA)]; [repeat split |].
  cbn [flat_map filter]. rewrite !filter_app, IS, IL, IA.
  unfold entry_calls, probes.
  destruct (is_dot d); cbn [negb]; [repeat split |].
  cbn [filter].
  assert (E : stat_ok w d =
              match w_stat w (entry_path d) with
              | Some _ => true
              | None => false
              end) by reflexivity.
  destruct (w_stat w (entry_path d)); rewrite E; repeat split.
Qed.

(** The probes of a pass, by kind: one symlink-following query for every
    entry other than "." and "..", in the order of the stream; one
    non-following query and one access check, for [R_OK], for each of those
    entries on which the first query succeeded. *)
Theorem probes_of_a_pass :
  forall (w : world) (s : locals),
    let cs := syscalls (trace (run (loop_body w) s)) in
    filter is_stat cs = map (fun d => Stat (entry_path d)) (entries_of w) /\
    filter is_lstat cs =
      map (fun d => Lstat (entry_path d))
          (filter (stat_ok w) (entries_of w)) /\
    filter is_access cs =
      map (fun d => Access (entry_path d) R_OK)
          (filter (stat_ok w) (entries_of w)).
Proof.
  intros w s cs. subst cs. rewrite syscalls_loop_body.
  unfold pass_calls, entries_of.
  destruct (w_opendir w "/var/log") as [errno | stream];
    [repeat split |].
  destruct (sample_calls_only_file w log_files) as (_ & _ & _ & S & L & A).
  destruct (probe_calls_entries w stream) as (PS & PL & PA).
  cbn [filter is_stat is_lstat is_access].
  rewrite !filter_app, S, L, A, PS, PL, PA.
  cbn [filter is_stat is_lstat is_access app].
  rewrite !app_nil_r. repeat split.
Qed.

Lemma fd_discipline_samples (w : world) (paths : list string) :
  fd_discipline (flat_map (sample_calls w) paths) = true.
Proof.
  induction paths as [| p rest IH]; [reflexivity |].
  cbn [flat_map]. unfold sample_calls at 1.
  destruct (0 <=? w_open w p O_RDONLY); cbn [app fd_discipline].
  - rewrite Z.eqb_refl. exact IH.
  - destruct rest as [| q rest']; [reflexivity |].
    cbn [flat_map] in *. unfold sample_calls at 1 in IH.
    unfold sample_calls at 1. cbn [app] in *. exact IH.
Qed.

Lemma fd_monitor_skip (w : world) (held : option Z) (a b : list syscall) :
  filter file_call a = [] ->
  fd_monitor w held (a ++ b) = fd_monitor w held b.
Proof.
  induction a as [| c r IH]; intros H; [reflexivity |].
  cbn [filter] in H. destruct c; cbn [file_call] in H;
    try discriminate; cbn [app fd_monitor]; apply IH; exact H.
Qed.

Lemma fd_monitor_samples (w : world) (paths : list string)
      (tail : list syscall) :
  fd_monitor w None (flat_map (sample_calls w) paths ++ tail) =
  fd_monitor w None tail.
Proof.
  induction paths as [| p rest IH]; [reflexivity |].
  cbn [flat_map]. rewrite <- app_assoc. unfold sample_calls at 1.
  cbn [app fd_monitor].
  destruct (0 <=? w_open w p O_RDONLY); cbn [app fd_monitor].
  - rewrite Z.eqb_refl. exact IH.
  - exact IH.
Qed.

(** The descriptors of the log files, with the descriptors that [open]
    returns in the world of the pass: no log file is opened while the
    descriptor of another is still open, every [read] and every [close] is
    on the descriptor that is open, and none is open when the pass ends.
    The calls on log files are thus a sequence of [open]s in which a
    descriptor that is read is closed by the next call, and each descriptor
    that [open] returned is closed once, in the order of the list. *)
Theorem log_file_descriptors_closed :
  forall (w : world) (s : locals),
    let cs := syscalls (trace (run (loop_body w) s)) in
    fd_monitor w None cs = true /\
    fd_discipline (filter file_call cs) = true /\
    filter is_close cs =
      map (fun p => Close (w_open w p O_RDONLY)) (opened_files w).
Proof.
  intros w s cs. subst cs. rewrite syscalls_loop_body.
  unfold pass_calls, opened_files.
  destruct (w_opendir w "/var/log") as [errno | stream];
    [repeat split |].
  destruct (entry_calls_no_file w stream) as (F & _ & _).
  destruct (sample_calls_only_file w log_files) as (O & _).
  split; [| split].
  - cbn [fd_monitor]. rewrite (fd_monitor_skip w None _ _ F).
    cbn [app fd_monitor]. rewrite fd_monitor_samples. reflexivity.
  - cbn [filter file_call]. rewrite !filter_app.
    rewrite F, O. cbn [filter file_call app]. rewrite app_nil_r.
    apply fd_discipline_samples.
  - cbn [filter is_close]. rewrite !filter_app, !filter_flat_map.
    replace (flat_map (fun a => filter is_close (entry_calls w a)) stream)
      with (@nil syscall).
    + cbn [filter is_close app]. rewrite app_nil_r.
      rewrite <- flat_map_if_singleton. apply flat_map_ext.
      intros p. unfold sample_calls, opened.
      destruct (0 <=? w_open w p O_RDONLY); reflexivity.
    + symmetry. apply flat_map_nil. intros d. unfold entry_calls, probes.
      destruct (is_dot d); [reflexivity |].
      destruct (w_stat w (entry_path d)); reflexivity.
Qed.

(** The monitor refuses a second [open] while a descriptor is held, a
    [read] on a descriptor that is not held, and a descriptor left open. *)
Example fd_monitor_refuses :
  let w := Env.of_fs Env.scenario in
  fd_monitor w None
    [Open "/var/log/messages" O_RDONLY; Open "/var/log/a.log" O_RDONLY;
     Close 3] = false /\
  fd_monitor w None [Open "/var/log/messages" O_RDONLY; Read 3 1024] = false /\
  fd_monitor w None [Read 3 1024] = false.
Proof. vm_compute. repeat split. Qed.

Section Quiet.

(** A reading of the trace that finds nothing in the calls, in the
    per-entry lines and in the per-file lines finds nothing in the two
    loops. *)
Context {X : Type}.
Variable f : event -> list X.
Hypothesis f_sys : forall c : syscall, f (Sys c) = [].
Hypothesis f_name : forall d : string, f (Printf "    - %s " [ArgStr d]) = [].
Hypothesis f_kind : forall k : kind, f (kind_line k) = [].

Lemma quiet_readdir_events (w : world) (stream : list string) :
  forall c : Z, flat_map f (readdir_events w c stream) = [].
Proof.
  induction stream as [| d rest IH]; intros c; cbn [readdir_events flat_map].
  - rewrite f_sys. reflexivity.
  - rewrite f_sys. cbn [app]. destruct (is_dot d); [apply IH |].
    rewrite flat_map_app, IH, app_nil_r. unfold entry_events.
    destruct (w_stat w (entry_path d));
      [| cbn [flat_map]; rewrite f_sys; reflexivity].
    rewrite flat_map_app. cbn [flat_map]. rewrite !f_sys. cbn [app].
    destruct (c <? 5); [| reflexivity].
    cbn [flat_map]. rewrite f_name, f_kind. reflexivity.
Qed.

Hypothesis f_bytes :
  forall (p : string) (b : Z),
    f (Printf "    - %s (%ld bytes read)\n" [ArgStr p; ArgInt b]) = [].

Lemma quiet_sample_events (w : world) (paths : list string) :
  flat_map f (flat_map (sample_events w) paths) = [].
Proof.
  induction paths as [| p rest IH]; [reflexivity |].
  cbn [flat_map]. rewrite flat_map_app, IH, app_nil_r.
  unfold sample_events.
  destruct (0 <=? w_open w p O_RDONLY); cbn [flat_map];
    rewrite ?f_sys, ?f_bytes; reflexivity.
Qed.

End Quiet.

Lemma bytes_line_of_kind_line (k : kind) : bytes_line_of (kind_line k) = [].
Proof. destruct k; reflexivity. Qed.

Lemma banner_of_kind_line (k : kind) : banner_of (kind_line k) = [].
Proof. destruct k; reflexivity. Qed.

Lemma stderr_of_kind_line (k : kind) : stderr_of (kind_line k) = [].
Proof. destruct k; reflexivity. Qed.

Lemma bytes_lines_samples (w : world) (paths : list string) :
  bytes_lines (flat_map (sample_events w) paths) =
  map (fun p => (p, w_read w p sizeof_buf)) (filter (opened w) paths).
Proof.
  induction paths as [| p rest IH]; [reflexivity |].
  cbn [flat_map filter]. unfold bytes_lines in *.
  rewrite flat_map_app, IH. unfold sample_events, opened.
  destruct (0 <=? w_open w p O_RDONLY); reflexivity.
Qed.

(** The per-file lines and the total: a pass prints one line for each log
    file that opened, with the value [read] returned, prints no line for
    the others, and the total it reports is the number of those lines, ten
    at most. *)
Theorem files_read_total_matches_lines :
  forall (w : world) (s : locals),
    let t := trace (run (loop_body w) s) in
    bytes_lines t =
      map (fun p => (p, w_read w p sizeof_buf)) (opened_files w) /\
    (List.length (bytes_lines t) <= 10)%nat /\
    reported_files_read t =
      match w_opendir w "/var/log" with
      | inl _ => []
      | inr _ => [Z.of_nat (List.length (bytes_lines t))]
      end.
Proof.
  intros w s t.
  assert (B : bytes_lines t =
              map (fun p => (p, w_read w p sizeof_buf)) (opened_files w)).
  { subst t. rewrite (proj1 (loop_body_run w s)).
    change (bytes_lines (banner_line ?i :: ?r)) with (bytes_lines r).
    unfold pass_rest, opened_files.
    destruct (w_opendir w "/var/log") as [errno | stream]; [reflexivity |].
    unfold bytes_lines. rewrite !flat_map_app.
    rewrite (quiet_readdir_events bytes_line_of)
      by (reflexivity || apply bytes_line_of_kind_line).
    fold (bytes_lines (flat_map (sample_events w) log_files)).
    rewrite bytes_lines_samples. cbn [flat_map app]. apply app_nil_r. }
  rewrite B. repeat split.
  - rewrite length_map. unfold opened_files.
    destruct (w_opendir w "/var/log"); [cbn; lia |].
    etransitivity; [apply filter_length_le | reflexivity].
  - destruct (w_opendir w "/var/log") as [errno | stream] eqn:O.
    + subst t. rewrite (proj1 (loop_body_run w s)). unfold pass_rest.
      rewrite O. reflexivity.
    + subst t. rewrite (reported_files_read_loop_body w s stream O).
      rewrite length_map. unfold opened_files. rewrite O. reflexivity.
Qed.

(** Standard error: a pass writes there only when [opendir] fails, one line
    with the message of [errno]; no failure of a probe, of an [open] or of
    a [read] is reported. *)
Theorem stderr_only_for_opendir :
  forall (w : world) (s : locals),
    stderr_lines (trace (run (loop_body w) s)) =
    match w_opendir w "/var/log" with
    | inl errno =>
        [("ERROR: Failed to open /var/log: %s\n",
          [ArgStr (w_strerror w errno)])]
    | inr _ => []
    end.
Proof.
  intros w s. rewrite (proj1 (loop_body_run w s)).
  change (stderr_lines (banner_line ?i :: ?r)) with (stderr_lines r).
  unfold pass_rest.
  destruct (w_opendir w "/var/log") as [errno | stream]; [reflexivity |].
  rewrite !stderr_lines_app.
  unfold stderr_lines at 2.
  rewrite (quiet_readdir_events stderr_of)
    by (reflexivity || apply stderr_of_kind_line).
  rewrite (proj2 (proj2 (proj2 (sample_events_quiet w log_files)))).
  reflexivity.
Qed.

Lemma sleep_pass_calls (w : world) :
  filter is_sleep (pass_calls w) = [Sleep 10].
Proof.
  unfold pass_calls.
  destruct (w_opendir w "/var/log") as [errno | stream]; [reflexivity |].
  cbn [filter is_sleep]. rewrite !filter_app.
  rewrite (proj2 (proj2 (entry_calls_no_file w stream))).
  rewrite (proj1 (proj2 (proj2 (sample_calls_only_file w log_files)))).
  reflexivity.
Qed.

Lemma sleep_main_loop (ws : list world) :
  forall s : locals,
    filter is_sleep (syscalls (trace (run (main_loop ws) s))) =
    repeat (Sleep 10) (List.length ws).
Proof.
  induction ws as [| w rest IH]; intros s; [reflexivity |].
  rewrite main_loop_cons, syscalls_app, filter_app, syscalls_loop_body.
  rewrite sleep_pass_calls, IH. reflexivity.
Qed.

(** The pause: every pass, whether it opened the directory or not, ends
    with its only [sleep], of 10 seconds; [main] has slept as many times as
    it has made passes. *)
Theorem one_sleep_per_pass :
  forall (ws : list world) (st0 : stat_t) (w : world) (s : locals),
    filter is_sleep (syscalls (main ws st0)) =
      repeat (Sleep 10) (List.length ws) /\
    exists before : list syscall,
      syscalls (trace (run (loop_body w) s)) = before ++ [Sleep 10] /\
      filter is_sleep before = [].
Proof.
  intros ws st0 w s. split.
  - unfold main. rewrite trace_bind, syscalls_app, filter_app.
    change (syscalls (trace (run prologue (mk_locals 0 0 st0))))
      with (@nil syscall).
    apply sleep_main_loop.
  - rewrite syscalls_loop_body. unfold pass_calls.
    destruct (w_opendir w "/var/log") as [errno | stream].
    + exists [Opendir "/var/log"]. split; reflexivity.
    + exists (Opendir "/var/log" ::
              flat_map (entry_calls w) stream ++ [Readdir; Closedir] ++
              flat_map (sample_calls w) log_files).
      split.
      * cbn [app]. rewrite <- !app_assoc. reflexivity.
      * cbn [filter is_sleep]. rewrite !filter_app.
        rewrite (proj2 (proj2 (entry_calls_no_file w stream))).
        rewrite (proj1 (proj2 (proj2 (sample_calls_only_file w log_files)))).
        reflexivity.
Qed.

Lemma banners_app (a b : list event) :
  banners (a ++ b) = banners a ++ banners b.
Proof. apply flat_map_app. Qed.

Lemma banners_loop_body (w : world) (s : locals) :
  banners (trace (run (loop_body w) s)) =
  [banner_shown (int_wrap (iteration s + 1))].
Proof.
  rewrite (proj1 (loop_body_run w s)).
  change (banners (banner_line ?i :: ?r)) with (banner_shown i :: banners r).
  f_equal. unfold pass_rest.
  destruct (w_opendir w "/var/log") as [errno | stream]; [reflexivity |].
  rewrite !banners_app. unfold banners at 2 4.
  rewrite (quiet_readdir_events banner_of)
    by (reflexivity || apply banner_of_kind_line).
  rewrite (quiet_sample_events banner_of) by reflexivity.
  reflexivity.
Qed.

Lemma banners_main_loop (ws : list world) :
  forall s : locals,
    0 <= iteration s ->
    iteration s + Z.of_nat (List.length ws) <= INT_MAX ->
    banners (trace (run (main_loop ws) s)) =
    map (fun k => banner_shown (iteration s + Z.of_nat k))
        (seq 1 (List.length ws)).
Proof.
  induction ws as [| w rest IH]; intros s H0 H; [reflexivity |].
  cbn [List.length] in H.
  rewrite main_loop_cons, banners_app, banners_loop_body.
  rewrite IH; rewrite (proj2 (loop_body_run w s));
    rewrite int_wrap_small by (unfold INT_MAX in *; lia); try lia.
  cbn [List.length seq map app]. f_equal.
  rewrite <- (seq_shift (List.length rest) 1), map_map.
  apply map_ext. intros k.
  f_equal. lia.
Qed.

(** The counter: the banners of [main] number the passes 1, 2, 3, ... in
    order, and the first, and only the first, is labelled "First scan". *)
Theorem passes_numbered_from_one :
  forall (ws : list world) (st0 : stat_t),
    Z.of_nat (List.length ws) <= INT_MAX ->
    banners (main ws st0) =
    map (fun k => banner_shown (Z.of_nat k)) (seq 1 (List.length ws)).
Proof.
  intros ws st0 H. unfold main. rewrite trace_bind, banners_app.
  change (banners (trace (run prologue (mk_locals 0 0 st0))))
    with (@nil (Z * string)).
  change (final (run prologue (mk_locals 0 0 st0))) with (mk_locals 0 0 st0).
  rewrite banners_main_loop by (cbn [iteration]; lia).
  reflexivity.
Qed.

Lemma passes_numbered_from_one_witness :
  let w := Env.of_fs Env.scenario in
  banners (main [w; w; w] Env.st0) =
  [(1, "First scan"); (2, "Periodic scan"); (3, "Periodic scan")].
Proof.
  intros w.
  apply (passes_numbered_from_one
           [Env.of_fs Env.scenario; Env.of_fs Env.scenario;
            Env.of_fs Env.scenario] Env.st0).
  vm_compute. discriminate.
Defined.

Lemma kind_from_stat_unless_symlink_witness :
  entry_lines
    (trace (run (scan_entry (Env.of_fs Env.scenario) "a.log") Env.s0)) =
  [("a.log", RegularFile 100)].
Proof.
  apply (kind_from_stat_unless_symlink
           (Env.of_fs Env.scenario) "a.log" Env.s0
           (mk_stat (Z.lor S_IFREG 420) 100)).
  - reflexivity.
  - vm_compute. reflexivity.
  - reflexivity.
  - left. reflexivity.
Defined.

Lemma str_take_keeps_prefix (p s : string) :
  forall n : nat,
    (String.length p <= n)%nat ->
    String.prefix p (str_take n (p ++ s)%string) = true.
Proof.
  induction p as [| a p' IH]; intros n H.
  - cbn [append]. destruct (str_take n s); reflexivity.
  - destruct n as [| k]; cbn [String.length] in H; [lia |].
    cbn [append str_take String.prefix].
    destruct (ascii_dec a a) as [_ | N]; [| contradiction].
    apply IH. lia.
Qed.

Lemma entry_path_under_var_log (d : string) :
  String.prefix "/var/log/" (entry_path d) = true.
Proof.
  apply (str_take_keeps_prefix "/var/log/" d 511). cbn. lia.
Qed.

Lemma under_var_log_samples (w : world) (paths : list string) :
  forallb (String.prefix "/var/log/") paths = true ->
  forallb under_var_log (flat_map (sample_calls w) paths) = true.
Proof.
  induction paths as [| p rest IH]; intros H; [reflexivity |].
  cbn [forallb] in H. apply andb_true_iff in H. destruct H as (Hp & Hr).
  cbn [flat_map]. rewrite forallb_app, (IH Hr), andb_true_r.
  unfold sample_calls.
  destruct (0 <=? w_open w p O_RDONLY); cbn [forallb andb];
    unfold under_var_log; cbn [path_of_call]; rewrite Hp;
    rewrite orb_true_r; reflexivity.
Qed.

Lemma under_var_log_pass_calls (w : world) :
  forallb under_var_log (pass_calls w) = true.
Proof.
  unfold pass_calls. destruct (w_opendir w "/var/log"); [reflexivity |].
  cbn [forallb andb]. rewrite !forallb_app.
  rewrite under_var_log_samples by reflexivity.
  rewrite forallb_flat_map; [reflexivity |].
  intros d. unfold entry_calls, probes. destruct (is_dot d); [reflexivity |].
  destruct (w_stat w (entry_path d)); cbn [forallb andb];
    unfold under_var_log; cbn [path_of_call];
    rewrite entry_path_under_var_log, orb_true_r; reflexivity.
Qed.

(** The paths: every path that [main] passes to a call is [/var/log] or
    lies under [/var/log/], whatever names the directory holds. *)
Theorem only_paths_under_var_log :
  forall (ws : list world) (st0 : stat_t),
    forallb under_var_log (syscalls (main ws st0)) = true.
Proof.
  intros ws st0. apply main_calls. exact under_var_log_pass_calls.
Qed.

Lemma all_dots_calls (w : world) (stream : list string) :
  real_entries stream = [] ->
  flat_map (entry_calls w) stream = repeat Readdir (List.length stream).
Proof.
  unfold real_entries.
  induction stream as [| d rest IH]; intros H; [reflexivity |].
  cbn [filter] in H. cbn [flat_map List.length repeat].
  unfold entry_calls at 1. destruct (is_dot d); cbn [negb] in H.
  - rewrite (IH H). reflexivity.
  - discriminate.
Qed.

(** The empty directory: when the stream holds nothing but "." and "..",
    the pass calls [readdir] until it returns [NULL], issues no probe,
    prints no per-entry line and reports 0 entries, and goes on to the log
    files as in any other pass. *)
Theorem empty_directory_pass :
  forall (w : world) (s : locals) (stream : list string),
    w_opendir w "/var/log" = inr stream ->
    real_entries stream = [] ->
    let t := trace (run (loop_body w) s) in
    syscalls t =
      Opendir "/var/log" ::
      repeat Readdir (S (List.length stream)) ++
      Closedir :: flat_map (sample_calls w) log_files ++ [Sleep 10] /\
    printed_entries t = [] /\
    reported_probed t = [0].
Proof.
  intros w s stream O E t. subst t. repeat split.
  - rewrite syscalls_loop_body. unfold pass_calls. rewrite O.
    rewrite (all_dots_calls w stream E). f_equal.
    replace (S (List.length stream)) with (List.length stream + 1)%nat by lia.
    rewrite repeat_app, <- app_assoc. reflexivity.
  - rewrite printed_loop_body.
    + unfold entries_of. rewrite O, E. reflexivity.
    + unfold entries_of. rewrite O, E. cbn. unfold INT_MAX. lia.
  - rewrite (reported_probed_loop_body w s stream O).
    rewrite count_after_real.
    + rewrite E. reflexivity.
    + lia.
    + rewrite E. cbn. unfold INT_MAX. lia.
Qed.

Lemma empty_directory_pass_witness :
  let w := Env.of_fs [("/var/log", Env.Dir [])] in
  let t := trace (run (loop_body w) Env.s0) in
  printed_entries t = [] /\ reported_probed t = [0].
Proof.
  intros w t.
  destruct (empty_directory_pass
              (Env.of_fs [("/var/log", Env.Dir [])]) Env.s0 ["."; ".."]
              eq_refl eq_refl) as (_ & P & R).
  split; [exact P | exact R].
Defined.

(** Names and paths: a name of at most 502 characters is probed under the
    joined path itself, so two such names are never probed under the same
    path. *)
Theorem entry_path_injective :
  forall d1 d2 : string,
    (String.length d1 <= 502)%nat ->
    (String.length d2 <= 502)%nat ->
    entry_path d1 = entry_path d2 ->
    entry_path d1 = ("/var/log/" ++ d1)%string /\ d1 = d2.
Proof.
  intros d1 d2 L1 L2 E.
  assert (F : forall d, (String.length d <= 502)%nat ->
                        entry_path d = ("/var/log/" ++ d)%string).
  { intros d L. change (entry_path d) with (str_take 511 ("/var/log/" ++ d)).
    apply str_take_all. cbn [append String.length]. lia. }
  split; [apply F; exact L1 |].
  rewrite (F d1 L1), (F d2 L2) in E. cbn [append] in E.
  injection E as E. exact E.
Qed.

Lemma entry_path_injective_witness :
  entry_path "a.log" = "/var/log/a.log" /\ "a.log" = "a.log".
Proof.
  apply (entry_path_injective "a.log" "a.log").
  - cbn. lia.
  - cbn. lia.
  - reflexivity.
Defined.

Lemma entry_lines_skip (e : event) (t : list event) :
  entry_name e = None -> entry_lines (e :: t) = entry_lines t.
Proof. intros H. cbn [entry_lines]. rewrite H. reflexivity. Qed.

Lemma entry_lines_quiet (t : list event) :
  (forall e, In e t -> entry_name e = None) -> entry_lines t = [].
Proof.
  induction t as [| e r IH]; intros H; [reflexivity |].
  rewrite entry_lines_skip by (apply H; left; reflexivity).
  apply IH. intros e' I. apply H. right. exact I.
Qed.

Lemma entry_name_kind_line (k : kind) : entry_name (kind_line k) = None.
Proof. destruct k; reflexivity. Qed.

Lemma kind_of_line_kind_line (k : kind) : kind_of_line (kind_line k) = Some k.
Proof. destruct k; reflexivity. Qed.

Lemma entry_lines_entry_events (w : world) (c : Z) (d : string)
      (rest : list event) :
  map fst (entry_lines (entry_events w c d ++ rest)) =
  printed_entries (entry_events w c d) ++ map fst (entry_lines rest).
Proof.
  rewrite printed_entry_events. unfold entry_events, stat_ok.
  destruct (w_stat w (entry_path d)) as [r |]; [| reflexivity].
  cbn [app andb]. rewrite !entry_lines_skip by reflexivity.
  destruct (c <? 5); [| reflexivity].
  cbn [app entry_lines].
  change (entry_name (Printf "    - %s " [ArgStr d])) with (Some d).
  cbv iota beta.
  rewrite kind_of_line_kind_line, entry_name_kind_line. reflexivity.
Qed.

Lemma entry_lines_readdir_events (w : world) (stream : list string)
      (rest : list event) :
  forall c : Z,
    map fst (entry_lines (readdir_events w c stream ++ rest)) =
    printed_entries (readdir_events w c stream) ++ map fst (entry_lines rest).
Proof.
  induction stream as [| d r IH]; intros c; cbn [readdir_events app].
  - rewrite entry_lines_skip by reflexivity. reflexivity.
  - rewrite entry_lines_skip by reflexivity.
    change (printed_entries (Sys Readdir :: ?t)) with (printed_entries t).
    destruct (is_dot d); [apply IH |].
    rewrite <- app_assoc, entry_lines_entry_events, IH.
    rewrite printed_entries_app, app_assoc. reflexivity.
Qed.

(** The per-entry lines: every name a pass prints is followed by the line
    of its kind, so the names of the complete lines are the names
    printed. *)
Theorem per_entry_lines_complete :
  forall (w : world) (s : locals),
    let t := trace (run (loop_body w) s) in
    map fst (entry_lines t) = printed_entries t.
Proof.
  intros w s t. subst t. rewrite (proj1 (loop_body_run w s)).
  rewrite entry_lines_skip by reflexivity.
  change (printed_entries (banner_line ?i :: ?r)) with (printed_entries r).
  unfold pass_rest.
  destruct (w_opendir w "/var/log") as [errno | stream]; [reflexivity |].
  unfold pass_head. cbn [app].
  rewrite !entry_lines_skip by reflexivity.
  change (printed_entries (?a :: ?b :: ?c :: ?d :: ?r))
    with (printed_entries r).
  rewrite entry_lines_readdir_events, printed_entries_app.
  f_equal.
  rewrite entry_lines_quiet.
  - rewrite !printed_entries_app.
    rewrite (proj1 (sample_events_quiet w log_files)). reflexivity.
  - intros e I. apply in_app_or in I. destruct I as [I | I].
    + destruct I as [<- | [<- | [<- | []]]]; reflexivity.
    + apply in_app_or in I. destruct I as [I | I].
      * apply in_flat_map in I. destruct I as (p & _ & I).
        unfold sample_events in I.
        destruct (0 <=? w_open w p O_RDONLY);
          repeat (destruct I as [<- | I]; [reflexivity |]); destruct I.
      * repeat (destruct I as [<- | I]; [reflexivity |]). destruct I.
Qed.
